(** * AI-Powered Task Manager: the task store of [src/App.js]

    A shallow embedding of the React component [App]: the task records, the
    event handlers that rewrite the [tasks] state cell, the two asynchronous
    AI workflows and the kanban board projection.

    Conventions of the embedding.
    - A handler is a function of the free variables its closure reads (the
      state cells of the render that created it, the clock, the event) and
      returns the values it passes to the state setters.
    - JavaScript numbers that serve as task ids are integral ([Date.now()]),
      and are modelled as [Z]; strings are modelled as [string], one [ascii]
      per code unit (code units above U+00FF are outside the model).
    - Values that come back from the text-generation service are dynamically
      typed; they are modelled by [JSVal]. *)

From Stdlib Require Import ZArith QArith Ascii String List Lia.
From Stdlib Require Import Decimal DecimalString DecimalPos DecimalN DecimalZ.
From stdpp Require Import base list strings gmap.
Import ListNotations.

#[local] Open Scope string_scope.
#[local] Open Scope list_scope.
#[local] Open Scope Z_scope.

(* ===================================================================== *)
(** ** JavaScript values *)

(** The values the component handles dynamically: the parsed transport body,
    the parsed payload stored in [aiAnalysis] and [aiSubTasks], and the
    [undefined] a missing property reads as. An object is the list of its own
    properties in insertion order, keys unique. *)
#[local] Set Warnings "-register-all".
Inductive JSVal : Type :=
| JUndefined
| JNull
| JBool (b : bool)
| JNum (q : Q)
| JStr (s : string)
| JArr (items : list JSVal)
| JObj (fields : list (string * JSVal)).

(** ToBoolean. *)
Definition truthy (v : JSVal) : bool :=
  match v with
  | JUndefined | JNull => false
  | JBool b => b
  | JNum q => negb (Qeq_bool q 0)
  | JStr s => negb (String.eqb s "")
  | JArr _ | JObj _ => true
  end.

(* ===================================================================== *)
(** ** Tasks *)

(** [status] is one of the three string literals ['todo'], ['in-progress'],
    ['done'] (line 11 and the column list of line 387). *)
Inductive Status : Type := todo | in_progress | done.

Definition Status_eqb (a b : Status) : bool :=
  match a, b with
  | todo, todo | in_progress, in_progress | done, done => true
  | _, _ => false
  end.

(** The object literal of line 34. *)
Record Task : Type := mkTask {
  id : Z;
  text : string;
  completed : bool;
  status : Status;
  aiAnalysis : JSVal;
  aiSubTasks : JSVal;
  isSubTasksVisible : bool
}.

(* ===================================================================== *)
(** ** [String.prototype.trim] *)

(** WhiteSpace and LineTerminator code units below U+0100: TAB, LF, VT, FF,
    CR, SP and NBSP. *)
Definition is_white_space (c : ascii) : bool :=
  match N_of_ascii c with
  | 9 | 10 | 11 | 12 | 13 | 32 | 160 => true
  | _ => false
  end%N.

Fixpoint trimStart (s : string) : string :=
  match s with
  | EmptyString => EmptyString
  | String c s' => if is_white_space c then trimStart s' else s
  end.

Fixpoint trimEnd (s : string) : string :=
  match s with
  | EmptyString => EmptyString
  | String c s' =>
      match trimEnd s' with
      | EmptyString => if is_white_space c then EmptyString else String c EmptyString
      | r => String c r
      end
  end.

Definition trim (s : string) : string := trimEnd (trimStart s).

(** A string of white space only. *)
Fixpoint blank (s : string) : bool :=
  match s with
  | EmptyString => true
  | String c s' => is_white_space c && blank s'
  end.

(* ===================================================================== *)
(** ** Synchronous handlers (lines 30-82) *)

(** [addTask] (lines 30-37), as a function of the value the name
    [newTaskText] is bound to, of the clock reading [Date.now()] and of
    [tasks]. Returns the value of the [tasks] cell once the handler has
    run (the argument of [setTasks] when line 34 is reached, [tasks]
    otherwise) and whether the handler threw.
    - [newTaskText.trim()] (line 31) throws a TypeError unless the value is
      a string: [undefined] and [null] have no properties, and no other
      value has a [trim] that can be called.
    - [setNewTaskText('')] (line 35) throws a TypeError, after [setTasks]
      has been called: line 13 takes [setNewTaskText] out of a string, so
      it is [undefined] or a one-character string, never a function. *)
Definition addTask (newTaskText : JSVal) (now : Z) (tasks : list Task)
  : list Task * bool :=
  match newTaskText with
  | JStr s =>
      if negb (String.eqb (trim s) "") then
        let newId := now in
        (tasks ++ [ {| id := newId; text := s; completed := false;
                       status := todo; aiAnalysis := JNull; aiSubTasks := JNull;
                       isSubTasksVisible := false |} ],
         true)
      else (tasks, false)
  | _ => (tasks, true)
  end.

(** Line 13: [const [newTaskText, setNewTaskText] = '']. Destructuring a
    string takes its characters in order, and a name past its end is
    [undefined]. *)
Definition destructure_pair (s : string) : JSVal * JSVal :=
  match s with
  | EmptyString => (JUndefined, JUndefined)
  | String c EmptyString => (JStr (String c EmptyString), JUndefined)
  | String c (String d _) => (JStr (String c EmptyString), JStr (String d EmptyString))
  end.

Definition newTaskText : JSVal := fst (destructure_pair "").
Definition setNewTaskText : JSVal := snd (destructure_pair "").

(** [toggleComplete] (lines 40-49). *)
Definition toggleComplete (id0 : Z) (tasks : list Task) : list Task :=
  map (fun task =>
         if id task =? id0 then
           let newStatus := if negb (completed task) then done else todo in
           {| id := id task; text := text task;
              completed := negb (completed task); status := newStatus;
              aiAnalysis := aiAnalysis task; aiSubTasks := aiSubTasks task;
              isSubTasksVisible := isSubTasksVisible task |}
         else task) tasks.

(** [toggleSubTasksVisibility] (lines 52-56). *)
Definition toggleSubTasksVisibility (id0 : Z) (tasks : list Task) : list Task :=
  map (fun task =>
         if id task =? id0 then
           {| id := id task; text := text task; completed := completed task;
              status := status task; aiAnalysis := aiAnalysis task;
              aiSubTasks := aiSubTasks task;
              isSubTasksVisible := negb (isSubTasksVisible task) |}
         else task) tasks.

(** [deleteTask] (lines 59-61). *)
Definition deleteTask (id0 : Z) (tasks : list Task) : list Task :=
  List.filter (fun task => negb (id task =? id0)) tasks.

(* ===================================================================== *)
(** ** Numbers as strings: [String(n)] and [parseInt] *)

(** [String(n)] for an integral number in the safe range: the decimal
    digits, with a leading minus sign below zero. *)
Definition Number_toString (n : Z) : string :=
  NilEmpty.string_of_int (Z.to_int n).

(** The value of a code unit as a digit in the given radix (10 or 16). *)
Definition digit_value (radix : Z) (c : ascii) : option Z :=
  let n := Z.of_N (N_of_ascii c) in
  let v := if (48 <=? n) && (n <=? 57) then Some (n - 48)
           else if (97 <=? n) && (n <=? 122) then Some (n - 87)
           else if (65 <=? n) && (n <=? 90) then Some (n - 55)
           else None in
  match v with
  | Some d => if d <? radix then Some d else None
  | None => None
  end.

(** The longest prefix of digits, accumulated left to right; [acc] is [None]
    until a first digit has been read. *)
Fixpoint parse_digits (radix : Z) (s : string) (acc : option Z) : option Z :=
  match s with
  | EmptyString => acc
  | String c s' =>
      match digit_value radix c with
      | Some d => parse_digits radix s' (Some (radix * default 0 acc + d))
      | None => acc
      end
  end.

(** [parseInt(s)] with no radix argument: leading white space is skipped, a
    sign is read, a [0x] or [0X] prefix selects radix 16, and the longest
    digit prefix is the value. [None] is [NaN]. *)
Definition parseInt (s : string) : option Z :=
  let s1 := trimStart s in
  let '(sign, s2) :=
    match s1 with
    | String "-" r => (-1, r)
    | String "+" r => (1, r)
    | _ => (1, s1)
    end in
  let '(radix, s3) :=
    match s2 with
    | String "0" (String "x" r) | String "0" (String "X" r) => (16, r)
    | _ => (10, s2)
    end in
  match parse_digits radix s3 None with
  | Some n => Some (sign * n)
  | None => None
  end.

(** [task.id === taskId] where [taskId] is the result of [parseInt]:
    [NaN] is equal to nothing. *)
Definition strict_eq_parsed (i : Z) (parsed : option Z) : bool :=
  match parsed with
  | Some j => i =? j
  | None => false
  end.

(* ===================================================================== *)
(** ** Drag and drop (lines 64-82) *)

(** [handleDragStart] (lines 64-66): the string [setData] stores under the
    key ['taskId']. *)
Definition handleDragStart (taskId : Z) : string := Number_toString taskId.

(** [handleDrop] (lines 72-82). [data] is what [getData('taskId')]
    returns. *)
Definition handleDrop (data : string) (newStatus : Status) (tasks : list Task)
  : list Task :=
  let taskId := parseInt data in
  map (fun task =>
         if strict_eq_parsed (id task) taskId then
           let newCompleted := if Status_eqb newStatus done then true else false in
           {| id := id task; text := text task; completed := newCompleted;
              status := newStatus; aiAnalysis := aiAnalysis task;
              aiSubTasks := aiSubTasks task;
              isSubTasksVisible := isSubTasksVisible task |}
         else task) tasks.

(* ===================================================================== *)
(** ** Board projection (lines 387-399) *)

Definition columns : list Status := [todo; in_progress; done].

(** [tasks.filter(task => task.status === status)]. *)
Definition column (st : Status) (tasks : list Task) : list Task :=
  List.filter (fun task => Status_eqb (status task) st) tasks.

(** The count shown in a column header (line 395). *)
Definition column_count (st : Status) (tasks : list Task) : nat :=
  length (column st tasks).

(* ===================================================================== *)
(** ** Exceptions and property access *)

(** A computation that may throw: [inl message] is a thrown [Error] with
    that [message], which is all the [catch] blocks read. *)
Definition Exn (A : Type) : Type := (string + A)%type.

Definition ret {A : Type} (a : A) : Exn A := inr a.
Definition throw {A : Type} (message : string) : Exn A := inl message.
Definition bind {A B : Type} (c : Exn A) (k : A -> Exn B) : Exn B :=
  match c with
  | inl message => inl message
  | inr a => k a
  end.

Notation "x <- c ;; k" := (bind c (fun x => k))
  (at level 100, c at next level, right associativity).

(** What the JavaScript engine supplies and the component does not define.
    - [JSON_parse v] is [JSON.parse(v)]: the argument is converted to a
      string and parsed; a [SyntaxError] is [inl] of its message.
    - [TypeError_message v k] is the message of the [TypeError] thrown by
      reading property [k] of [v] when [v] is [undefined] or [null].
    - [coerced_gt0 v] is [v > 0] for an operand that is a string, an array
      or an object (the comparison goes through ToPrimitive and the number
      grammar). *)
Class Host : Type := {
  JSON_parse : JSVal -> Exn JSVal;
  TypeError_message : JSVal -> string -> string;
  coerced_gt0 : JSVal -> bool
}.

(** The value of an own property, [undefined] when there is none. *)
Fixpoint own_property (k : string) (fields : list (string * JSVal)) : JSVal :=
  match fields with
  | [] => JUndefined
  | (k', v) :: rest => if String.eqb k' k then v else own_property k rest
  end.

Definition JNat (n : nat) : JSVal := JNum (inject_Z (Z.of_nat n)).

Section Engine.
Context `{Host}.

(** [v.k] for the property names the component reads ([candidates],
    [length], [content], [parts], [text]); none of them is inherited from
    a prototype. *)
Definition get_prop (v : JSVal) (k : string) : Exn JSVal :=
  match v with
  | JUndefined | JNull => throw (TypeError_message v k)
  | JBool _ | JNum _ => ret JUndefined
  | JStr s => ret (if String.eqb k "length" then JNat (String.length s) else JUndefined)
  | JArr items => ret (if String.eqb k "length" then JNat (length items) else JUndefined)
  | JObj fields => ret (own_property k fields)
  end.

(** [v[i]] for a literal index [i]. *)
Definition get_index (v : JSVal) (i : nat) : Exn JSVal :=
  match v with
  | JUndefined | JNull => throw (TypeError_message v (Number_toString (Z.of_nat i)))
  | JBool _ | JNum _ => ret JUndefined
  | JStr s => ret (match String.get i s with
                   | Some c => JStr (String c EmptyString)
                   | None => JUndefined
                   end)
  | JArr items => ret (nth i items JUndefined)
  | JObj fields => ret (own_property (Number_toString (Z.of_nat i)) fields)
  end.

(** [v > 0]. *)
Definition gt0 (v : JSVal) : bool :=
  match v with
  | JUndefined | JNull => false
  | JBool b => b
  | JNum q => negb (Qle_bool q 0)
  | JStr _ | JArr _ | JObj _ => coerced_gt0 v
  end.

(* =================================================================== *)
(** ** The request to the text-generation service *)

(** What [response.json()] settles to. *)
Inductive Body : Type :=
| BodyRejected (message : string)
| BodyJSON (result : JSVal).

(** What [fetch] settles to. *)
Inductive FetchOutcome : Type :=
| FetchRejected (message : string)
| FetchResponse (status : Z) (body : Body).

(** [response.ok]. *)
Definition response_ok (status : Z) : bool :=
  (200 <=? status) && (status <=? 299).

(** The condition of lines 130-132 (and 193-195), conjunct by conjunct. *)
Definition has_candidate_parts (result : JSVal) : Exn bool :=
  candidates <- get_prop result "candidates" ;;
  if negb (truthy candidates) then ret false else
  len <- get_prop candidates "length" ;;
  if negb (gt0 len) then ret false else
  c0 <- get_index candidates 0 ;;
  content <- get_prop c0 "content" ;;
  if negb (truthy content) then ret false else
  parts <- get_prop content "parts" ;;
  if negb (truthy parts) then ret false else
  len' <- get_prop parts "length" ;;
  ret (gt0 len').

(** [result.candidates[0].content.parts[0].text] (lines 133 and 196). *)
Definition candidate_text (result : JSVal) : Exn JSVal :=
  candidates <- get_prop result "candidates" ;;
  c0 <- get_index candidates 0 ;;
  content <- get_prop c0 "content" ;;
  parts <- get_prop content "parts" ;;
  p0 <- get_index parts 0 ;;
  get_prop p0 "text".

(** Lines 118-134 of [analyzeTaskWithAI], which lines 181-197 of
    [breakdownTaskWithAI] repeat word for word: [Some v] when the [if]
    branch parsed the payload [v], [None] when the [else] branch is taken,
    a thrown message otherwise. *)
Definition request (outcome : FetchOutcome) : Exn (option JSVal) :=
  match outcome with
  | FetchRejected message => throw message
  | FetchResponse status body =>
      if negb (response_ok status) then
        throw ("HTTP error! status: " +:+ Number_toString status)
      else
        result <- match body with
                  | BodyRejected message => throw message
                  | BodyJSON result => ret result
                  end ;;
        present <- has_candidate_parts result ;;
        if present then
          jsonString <- candidate_text result ;;
          parsed <- JSON_parse jsonString ;;
          ret (Some parsed)
        else ret None
  end.

(* =================================================================== *)
(** ** The AI workflows (lines 85-216) *)

(** [{ ...task, aiAnalysis: a }]. *)
Definition put_aiAnalysis (a : JSVal) (task : Task) : Task :=
  {| id := id task; text := text task; completed := completed task;
     status := status task; aiAnalysis := a; aiSubTasks := aiSubTasks task;
     isSubTasksVisible := isSubTasksVisible task |}.

(** [{ ...task, aiSubTasks: l, isSubTasksVisible: true }]. *)
Definition put_aiSubTasks (l : JSVal) (task : Task) : Task :=
  {| id := id task; text := text task; completed := completed task;
     status := status task; aiAnalysis := aiAnalysis task; aiSubTasks := l;
     isSubTasksVisible := true |}.

(** [tasks.map(task => task.id === taskId ? { ...task, aiAnalysis: a } : task)]:
    the argument of the three [setTasks] calls of [analyzeTaskWithAI]. *)
Definition setAnalysis (taskId : Z) (a : JSVal) (tasks : list Task) : list Task :=
  map (fun task => if id task =? taskId then put_aiAnalysis a task else task) tasks.

(** The argument of the three [setTasks] calls of [breakdownTaskWithAI]. *)
Definition setSubTasks (taskId : Z) (l : JSVal) (tasks : list Task) : list Task :=
  map (fun task => if id task =? taskId then put_aiSubTasks l task else task) tasks.

Definition error_analysis (notes : string) : JSVal :=
  JObj [("category", JStr "Error"); ("priority", JStr "Error");
        ("notes", JStr notes)].

(** The state cells the handlers below write: [tasks] (line 12) and the two
    loading markers (lines 14-15), [None] for [null]. *)
Record App : Type := mkApp {
  tasks : list Task;
  aiLoadingTaskId : option Z;
  breakdownLoadingTaskId : option Z
}.

(** [analyzeTaskWithAI] up to its first [await] (line 86). *)
Definition analyzeTaskWithAI_start (taskId : Z) (app : App) : App :=
  {| tasks := tasks app;
     aiLoadingTaskId := Some taskId;
     breakdownLoadingTaskId := breakdownLoadingTaskId app |}.

(** [analyzeTaskWithAI] from the moment [fetch] settles (lines 118-152).
    [closure_tasks] is the [tasks] constant of the render whose handler
    was called: the function never reads the state cell again. *)
Definition analyzeTaskWithAI_settle (closure_tasks : list Task) (taskId : Z)
    (outcome : FetchOutcome) (app : App) : App :=
  let new_tasks :=
    match request outcome with
    | inr (Some aiAnalysis) => setAnalysis taskId aiAnalysis closure_tasks
    | inr None =>
        setAnalysis taskId (error_analysis "Could not analyze") closure_tasks
    | inl message =>
        setAnalysis taskId (error_analysis ("Analysis failed: " +:+ message))
          closure_tasks
    end in
  {| tasks := new_tasks;
     aiLoadingTaskId := None;
     breakdownLoadingTaskId := breakdownLoadingTaskId app |}.

(** [breakdownTaskWithAI] up to its first [await] (line 157). *)
Definition breakdownTaskWithAI_start (taskId : Z) (app : App) : App :=
  {| tasks := tasks app;
     aiLoadingTaskId := aiLoadingTaskId app;
     breakdownLoadingTaskId := Some taskId |}.

(** [breakdownTaskWithAI] from the moment [fetch] settles (lines 181-215). *)
Definition breakdownTaskWithAI_settle (closure_tasks : list Task) (taskId : Z)
    (outcome : FetchOutcome) (app : App) : App :=
  let new_tasks :=
    match request outcome with
    | inr (Some aiSubTasks) => setSubTasks taskId aiSubTasks closure_tasks
    | inr None =>
        setSubTasks taskId (JArr [JStr "Could not break down task."]) closure_tasks
    | inl message =>
        setSubTasks taskId (JArr [JStr ("Breakdown failed: " +:+ message)])
          closure_tasks
    end in
  {| tasks := new_tasks;
     aiLoadingTaskId := aiLoadingTaskId app;
     breakdownLoadingTaskId := None |}.

End Engine.

(* ===================================================================== *)
(** ** The component as a transition system *)

(** A call of a workflow whose [fetch] has not settled yet, with the
    [tasks] constant its closure holds. *)
Inductive Workflow : Type := Analysis | Breakdown.

Record Pending : Type := mkPending {
  workflow : Workflow;
  taskId : Z;
  taskText : string;
  closure_tasks : list Task
}.

Record Sys : Type := mkSys {
  app : App;
  pending : list Pending
}.

(** The events the component reacts to. A synchronous handler runs in the
    closure of the latest render and reads the current cells; [ClickAdd]
    carries the value the name [newTaskText] is bound to in that render,
    which line 13 makes [undefined] (see [wired]). *)
Inductive Event : Type :=
| ClickAdd (newTaskText : JSVal) (now : Z)
| CheckboxChange (id0 : Z)
| ClickShowHide (id0 : Z)
| ClickDelete (id0 : Z)
| Drop (data : string) (newStatus : Status)
| ClickAnalyze (id0 : Z) (txt : string)
| ClickBreakdown (id0 : Z) (txt : string)
| Settle (k : nat) (outcome : FetchOutcome).

Definition with_tasks (ts : list Task) (a : App) : App :=
  {| tasks := ts;
     aiLoadingTaskId := aiLoadingTaskId a;
     breakdownLoadingTaskId := breakdownLoadingTaskId a |}.

Section System.
Context `{Host}.

Definition settle (p : Pending) (outcome : FetchOutcome) (a : App) : App :=
  match workflow p with
  | Analysis => analyzeTaskWithAI_settle (closure_tasks p) (taskId p) outcome a
  | Breakdown => breakdownTaskWithAI_settle (closure_tasks p) (taskId p) outcome a
  end.

Definition step (e : Event) (s : Sys) : Sys :=
  let a := app s in
  match e with
  | ClickAdd newTaskText now =>
      {| app := with_tasks (fst (addTask newTaskText now (tasks a))) a;
         pending := pending s |}
  | CheckboxChange id0 =>
      {| app := with_tasks (toggleComplete id0 (tasks a)) a; pending := pending s |}
  | ClickShowHide id0 =>
      {| app := with_tasks (toggleSubTasksVisibility id0 (tasks a)) a;
         pending := pending s |}
  | ClickDelete id0 =>
      {| app := with_tasks (deleteTask id0 (tasks a)) a; pending := pending s |}
  | Drop data newStatus =>
      {| app := with_tasks (handleDrop data newStatus (tasks a)) a;
         pending := pending s |}
  | ClickAnalyze id0 txt =>
      {| app := analyzeTaskWithAI_start id0 a;
         pending := pending s ++ [mkPending Analysis id0 txt (tasks a)] |}
  | ClickBreakdown id0 txt =>
      {| app := breakdownTaskWithAI_start id0 a;
         pending := pending s ++ [mkPending Breakdown id0 txt (tasks a)] |}
  | Settle k outcome =>
      match pending s !! k with
      | Some p => {| app := settle p outcome a; pending := delete k (pending s) |}
      | None => s
      end
  end.

Definition run (events : list Event) (s : Sys) : Sys :=
  fold_left (fun s e => step e s) events s.

End System.

(** The first render: no task, nothing loading, no call in flight. *)
Definition initial : Sys :=
  {| app := {| tasks := []; aiLoadingTaskId := None;
               breakdownLoadingTaskId := None |};
     pending := [] |}.

(* ===================================================================== *)
(** ** Store operations *)

(** The operations on the task collection, each with the arguments its
    handler reads. *)
Inductive StoreOp : Type :=
| OpAdd (newTaskText : JSVal) (now : Z)
| OpDelete (id0 : Z)
| OpToggleComplete (id0 : Z)
| OpMove (data : string) (newStatus : Status)
| OpToggleSubTasksVisible (id0 : Z)
| OpSetAnalysis (id0 : Z) (result : JSVal)
| OpSetSubTasks (id0 : Z) (subTasks : JSVal).

Definition apply_op (op : StoreOp) (ts : list Task) : list Task :=
  match op with
  | OpAdd newTaskText now => fst (addTask newTaskText now ts)
  | OpDelete id0 => deleteTask id0 ts
  | OpToggleComplete id0 => toggleComplete id0 ts
  | OpMove data newStatus => handleDrop data newStatus ts
  | OpToggleSubTasksVisible id0 => toggleSubTasksVisibility id0 ts
  | OpSetAnalysis id0 result => setAnalysis id0 result ts
  | OpSetSubTasks id0 subTasks => setSubTasks id0 subTasks ts
  end.

Definition apply_ops (ops : list StoreOp) (ts : list Task) : list Task :=
  fold_left (fun ts op => apply_op op ts) ops ts.

(** The operations that rewrite the task with a given id. *)
Definition keyed_update (op : StoreOp) (id0 : Z) : Prop :=
  match op with
  | OpToggleComplete i | OpToggleSubTasksVisible i
  | OpSetAnalysis i _ | OpSetSubTasks i _ => i = id0
  | OpMove data _ => parseInt data = Some id0
  | OpAdd _ _ | OpDelete _ => False
  end.

(** [completed] is true exactly when [status] is ['done']. *)
Definition consistent (t : Task) : Prop :=
  completed t = true <-> status t = done.

(** The same for a state of the component: the collection and every
    collection held by the closure of a call in flight. *)
Definition sys_consistent (s : Sys) : Prop :=
  Forall consistent (tasks (app s)) /\
  Forall (fun p => Forall consistent (closure_tasks p)) (pending s).

(* ===================================================================== *)
(** ** The shapes of a response body *)

(** The body holds a first candidate whose content holds a first part, and
    [jsonString] is the [text] of that part: the path to the payload. *)
Inductive nested_text : JSVal -> JSVal -> Prop :=
| nested_text_intro (fields cfields ofields pfields : list (string * JSVal))
    (cs ps : list JSVal) :
    own_property "candidates" fields = JArr (JObj cfields :: cs) ->
    own_property "content" cfields = JObj ofields ->
    own_property "parts" ofields = JArr (JObj pfields :: ps) ->
    nested_text (JObj fields) (own_property "text" pfields).

Definition absent (v : JSVal) : Prop := v = JUndefined \/ v = JNull.

(** The body is an object with no candidate content: no candidates, an
    empty candidate list, a first candidate with no content, a content
    with no parts or with an empty part list. *)
Inductive content_missing : JSVal -> Prop :=
| missing_candidates (fields : list (string * JSVal)) :
    absent (own_property "candidates" fields) ->
    content_missing (JObj fields)
| empty_candidates (fields : list (string * JSVal)) :
    own_property "candidates" fields = JArr [] ->
    content_missing (JObj fields)
| missing_content (fields cfields : list (string * JSVal)) (cs : list JSVal) :
    own_property "candidates" fields = JArr (JObj cfields :: cs) ->
    absent (own_property "content" cfields) ->
    content_missing (JObj fields)
| missing_parts (fields cfields ofields : list (string * JSVal)) (cs : list JSVal) :
    own_property "candidates" fields = JArr (JObj cfields :: cs) ->
    own_property "content" cfields = JObj ofields ->
    absent (own_property "parts" ofields) ->
    content_missing (JObj fields)
| empty_parts (fields cfields ofields : list (string * JSVal)) (cs : list JSVal) :
    own_property "candidates" fields = JArr (JObj cfields :: cs) ->
    own_property "content" cfields = JObj ofields ->
    own_property "parts" ofields = JArr [] ->
    content_missing (JObj fields).

(** A response body with one candidate, one part and the given text. *)
Definition body_with_text (jsonString : JSVal) : JSVal :=
  JObj [("candidates",
         JArr [JObj [("content",
                      JObj [("parts", JArr [JObj [("text", jsonString)]]);
                            ("role", JStr "model")])]])].

(** ** A small engine, for running the workflows on examples *)

Definition dq : string := String (ascii_of_nat 34) EmptyString.

(** The text [{"category":"Work","priority":"High","notes":"due soon"}]. *)
Definition work_high_text : string :=
  "{" +:+ dq +:+ "category" +:+ dq +:+ ":" +:+ dq +:+ "Work" +:+ dq +:+ "," +:+
  dq +:+ "priority" +:+ dq +:+ ":" +:+ dq +:+ "High" +:+ dq +:+ "," +:+
  dq +:+ "notes" +:+ dq +:+ ":" +:+ dq +:+ "due soon" +:+ dq +:+ "}".

Definition work_high : JSVal :=
  JObj [("category", JStr "Work"); ("priority", JStr "High");
        ("notes", JStr "due soon")].

(** The text [["Draft","Review"]]. *)
Definition two_steps_text : string :=
  "[" +:+ dq +:+ "Draft" +:+ dq +:+ "," +:+ dq +:+ "Review" +:+ dq +:+ "]".

Definition two_steps : JSVal := JArr [JStr "Draft"; JStr "Review"].

(** An engine whose [JSON.parse] knows the two texts above and rejects
    everything else. *)
Definition sample_host : Host :=
  {| JSON_parse := fun v =>
       match v with
       | JStr s =>
           if String.eqb s work_high_text then inr work_high
           else if String.eqb s two_steps_text then inr two_steps
           else inl "Unexpected token"
       | _ => inl "Unexpected token"
       end;
     TypeError_message := fun _ k => "Cannot read properties (reading " +:+ k +:+ ")";
     coerced_gt0 := fun _ => false |}.

(* ===================================================================== *)
(** ** Theme (lines 6-27) *)

(** What the theme code reads and writes outside the component: the class
    list of [document.documentElement], an ordered set of tokens, and
    [localStorage], taken as a plain key-value store. *)
Record Page : Type := mkPage {
  classes : list string;
  localStorage : gmap string string
}.

(** The initializer of [useState] (lines 6-9):
    [localStorage.getItem('theme') || 'light']. *)
Definition initial_theme (storage : gmap string string) : string :=
  match storage !! "theme" with
  | Some savedTheme => if String.eqb savedTheme "" then "light" else savedTheme
  | None => "light"
  end.

(** The updater of [toggleTheme] (line 26). *)
Definition toggleTheme (prevTheme : string) : string :=
  if String.eqb prevTheme "light" then "dark" else "light".

(** ASCII white space, which a class token may not contain: TAB, LF, FF,
    CR and SP. *)
Definition is_ascii_whitespace (c : ascii) : bool :=
  match N_of_ascii c with
  | 9 | 10 | 12 | 13 | 32 => true
  | _ => false
  end%N.

Fixpoint has_ascii_whitespace (s : string) : bool :=
  match s with
  | EmptyString => false
  | String c s' => is_ascii_whitespace c || has_ascii_whitespace s'
  end.

Definition has_token (token : string) (tokens : list string) : bool :=
  existsb (String.eqb token) tokens.

(** [classList.remove(...tokens)] for well-formed tokens. *)
Definition classList_remove (tokens : list string) (cl : list string) : list string :=
  List.filter (fun c => negb (has_token c tokens)) cl.

(** [classList.add(token)]: [None] when the call throws (an empty token or
    one with white space), otherwise the token is appended unless present. *)
Definition classList_add (token : string) (cl : list string) : option (list string) :=
  if String.eqb token "" then None
  else if has_ascii_whitespace token then None
  else Some (if has_token token cl then cl else cl ++ [token]).

(** The effect of lines 18-22, run after the first render and after every
    change of [theme]; [None] when [classList.add] throws, in which case
    [localStorage.setItem] is not reached. *)
Definition theme_effect (theme : string) (page : Page) : option Page :=
  match classList_add theme (classList_remove ["light"; "dark"] (classes page)) with
  | Some cl => Some {| classes := cl;
                       localStorage := <["theme" := theme]> (localStorage page) |}
  | None => None
  end.

(** A session: the first render, then [n] clicks on the theme button, the
    effect running after each render. Returns the theme and the page. *)
Fixpoint toggles (n : nat) (theme : string) (page : Page) : option (string * Page) :=
  match n with
  | O => Some (theme, page)
  | S n' =>
      let theme' := toggleTheme theme in
      match theme_effect theme' page with
      | Some page' => toggles n' theme' page'
      | None => None
      end
  end.

Definition session (n : nat) (page : Page) : option (string * Page) :=
  let theme := initial_theme (localStorage page) in
  match theme_effect theme page with
  | Some page' => toggles n theme page'
  | None => None
  end.

(* ===================================================================== *)
(** ** The task card (lines 218-269) *)

(** The checkbox, the text and the two workflow buttons of a card
    (lines 227-269). *)
Record Card : Type := mkCard {
  checkbox_checked : bool;
  text_line_through : bool;
  analyze_disabled : bool;
  analyze_label : string;
  breakdown_disabled : bool;
  breakdown_label : string
}.

(** [aiLoadingTaskId === task.id], the marker being [null] or an id. *)
Definition marker_is (marker : option Z) (i : Z) : bool :=
  match marker with
  | Some j => j =? i
  | None => false
  end.

Definition renderTaskCard (a : App) (task : Task) : Card :=
  {| checkbox_checked := completed task;
     text_line_through := completed task;
     analyze_disabled := marker_is (aiLoadingTaskId a) (id task);
     analyze_label :=
       if marker_is (aiLoadingTaskId a) (id task) then "Analyzing..." else "AI Analyze";
     breakdown_disabled := marker_is (breakdownLoadingTaskId a) (id task);
     breakdown_label :=
       if marker_is (breakdownLoadingTaskId a) (id task)
       then "Breaking Down..." else "Breakdown Task" |}.

(** ** The AI parts of a card (lines 240-245 and 280-299) *)

(** A value placed between braces as the child of an element: a string or
    a number is shown as text, a boolean, [null] and [undefined] show
    nothing, an array shows its items, and a plain object makes the render
    throw. *)
Fixpoint valid_child (v : JSVal) : bool :=
  match v with
  | JObj _ => false
  | JArr items => forallb valid_child items
  | JUndefined | JNull | JBool _ | JNum _ | JStr _ => true
  end.

(** [v.k] for a truthy [v] and [k] one of [category], [priority],
    [notes]: an own property of an object, [undefined] on anything else. *)
Definition field (v : JSVal) (k : string) : JSVal :=
  match v with
  | JObj fields => own_property k fields
  | _ => JUndefined
  end.

(** What [task.aiAnalysis && (...)] (lines 240-245) puts on the card: the
    panel with the three fields as children (the notes paragraph when
    [notes] is truthy, the value of [notes] itself otherwise), the text [0]
    when the value is the number zero, nothing for any other falsy value;
    the render throws when a field is not a valid child. *)
Inductive AnalysisView : Type :=
| NoPanel
| PanelZero
| Panel (category priority notes : JSVal)
| PanelThrows.

Definition analysis_view_of (aiAnalysis : JSVal) : AnalysisView :=
  if truthy aiAnalysis then
    let category := field aiAnalysis "category" in
    let priority := field aiAnalysis "priority" in
    let notes := field aiAnalysis "notes" in
    if valid_child category && valid_child priority && valid_child notes
    then Panel category priority notes
    else PanelThrows
  else
    match aiAnalysis with
    | JNum _ => PanelZero
    | _ => NoPanel
    end.

Definition analysis_view (task : Task) : AnalysisView :=
  analysis_view_of (aiAnalysis task).

(** What [task.aiSubTasks && (...)] (lines 280-299) puts on the card:
    nothing, the text [0], the header alone, or the header and one list
    item per element of the array; the render throws when the value has no
    [map] method or an element is not a valid child. *)
Inductive SubTasksView : Type :=
| NoSection
| SectionZero
| SectionCollapsed
| SectionList (items : list JSVal)
| RenderThrows.

Definition subtasks_view_of (visible : bool) (aiSubTasks : JSVal) : SubTasksView :=
  if truthy aiSubTasks then
    if visible then
      match aiSubTasks with
      | JArr items =>
          if forallb valid_child items then SectionList items else RenderThrows
      | _ => RenderThrows
      end
    else SectionCollapsed
  else
    match aiSubTasks with
    | JNum _ => SectionZero
    | _ => NoSection
    end.

Definition subtasks_view (task : Task) : SubTasksView :=
  subtasks_view_of (isSubTasksVisible task) (aiSubTasks task).

(** The text [{"category":{}}]. *)
Definition nested_category_text : string :=
  "{" +:+ dq +:+ "category" +:+ dq +:+ ":{}}".

(** An engine whose [JSON.parse] knows a few literals. *)
Definition literal_host : Host :=
  {| JSON_parse := fun v =>
       match v with
       | JStr s =>
           if String.eqb s "null" then inr JNull
           else if String.eqb s "0" then inr (JNum 0)
           else if String.eqb s "{}" then inr (JObj [])
           else if String.eqb s "[]" then inr (JArr [])
           else if String.eqb s "[{}]" then inr (JArr [JObj []])
           else if String.eqb s "true" then inr (JBool true)
           else if String.eqb s nested_category_text
                then inr (JObj [("category", JObj [])])
           else inl "Unexpected token"
       | _ => inl "Unexpected token"
       end;
     TypeError_message := fun _ k => "Cannot read properties (reading " +:+ k +:+ ")";
     coerced_gt0 := fun _ => false |}.

(** The clock readings a trace makes: [Date.now()] (line 32) is read by
    the additions that pass the guard of line 31, and by no other. *)
Definition clock_readings (events : list Event) : list Z :=
  omap (fun e => match e with
                 | ClickAdd (JStr s) now =>
                     if String.eqb (trim s) "" then None else Some now
                 | _ => None
                 end) events.



(** The ids of a state: of its collection and of every collection held by
    the closure of a call in flight. *)
Definition sys_collections (s : Sys) : list (list Task) :=
  tasks (app s) :: map closure_tasks (pending s).



(* ===================================================================== *)
(** * Properties *)

(** ** Lists and strings *)

Lemma lookup_map {A B : Type} (f : A -> B) (l : list A) (i : nat) :
  map f l !! i = f <$> (l !! i).
Proof.
  revert i; induction l as [|a l IH]; intros [|i]; simpl; auto.
Qed.

Lemma Status_eqb_eq (a b : Status) : Status_eqb a b = true <-> a = b.
Proof. destruct a, b; simpl; split; congruence. Qed.

Lemma Status_eqb_refl (a : Status) : Status_eqb a a = true.
Proof. now destruct a. Qed.

Lemma trimStart_empty_iff (s : string) : trimStart s = "" <-> blank s = true.
Proof.
  induction s as [|c s IH]; simpl; [tauto|].
  destruct (is_white_space c); simpl; [exact IH|].
  split; discriminate.
Qed.

Lemma trimEnd_empty_iff (s : string) : trimEnd s = "" <-> blank s = true.
Proof.
  induction s as [|c s IH]; simpl; [tauto|].
  destruct (trimEnd s) eqn:E.
  - destruct (is_white_space c); simpl.
    + tauto.
    + split; discriminate.
  - split; [discriminate|].
    intros Hb. apply andb_true_iff in Hb as [_ Hb].
    apply IH in Hb. discriminate.
Qed.

Lemma blank_trimStart (s : string) : blank (trimStart s) = blank s.
Proof.
  induction s as [|c s IH]; simpl; auto.
  destruct (is_white_space c) eqn:E; simpl; auto.
  now rewrite E.
Qed.

(** The guard of [addTask] rejects exactly the strings made of white space. *)
Lemma trim_empty_iff (s : string) : trim s = "" <-> blank s = true.
Proof.
  unfold trim. rewrite trimEnd_empty_iff, blank_trimStart. tauto.
Qed.

Lemma eqb_empty_false (s : string) : s <> "" -> String.eqb s "" = false.
Proof. intros Hs. now apply String.eqb_neq. Qed.

(** ** [addTask] *)

Lemma addTask_blank (s : string) (now : Z) (ts : list Task) :
  trim s = "" -> addTask (JStr s) now ts = (ts, false).
Proof. intros E. unfold addTask. now rewrite E. Qed.

Lemma addTask_nonblank (s : string) (now : Z) (ts : list Task) :
  trim s <> "" ->
  addTask (JStr s) now ts =
    (ts ++ [mkTask now s false todo JNull JNull false], true).
Proof.
  intros E. unfold addTask. now rewrite (eqb_empty_false _ E).
Qed.

Lemma addTask_not_a_string (v : JSVal) (now : Z) (ts : list Task) :
  (forall s, v <> JStr s) -> addTask v now ts = (ts, true).
Proof. intros Hv. destruct v; try reflexivity. now destruct (Hv s). Qed.

(** The collection [addTask] leaves is the one it found, or that one
    followed by one task whose id is the clock reading. *)
Lemma addTask_cases (v : JSVal) (now : Z) (ts : list Task) :
  fst (addTask v now ts) = ts \/
  exists s, v = JStr s /\ trim s <> "" /\
            fst (addTask v now ts) = ts ++ [mkTask now s false todo JNull JNull false].
Proof.
  destruct v; try (now left). unfold addTask.
  destruct (String.eqb_spec (trim s) ""); simpl; [now left|].
  right. now exists s.
Qed.

Lemma addTask_wired (now : Z) (ts : list Task) :
  newTaskText = JUndefined /\ setNewTaskText = JUndefined /\
  addTask newTaskText now ts = (ts, true).
Proof. repeat split. Qed.

(** C2. Line 13 leaves [newTaskText] and [setNewTaskText] undefined, so
    the handler throws at [newTaskText.trim()] on every call, whatever has
    been typed, and [setTasks] is not reached: the collection stays as it
    was and no task is appended. *)
Theorem addTask_throws_as_wired (now : Z) (ts : list Task) :
  newTaskText = JUndefined /\ setNewTaskText = JUndefined /\
  addTask newTaskText now ts = (ts, true).
Proof.
  unfold newTaskText, setNewTaskText, destructure_pair; simpl.
  split; [reflexivity|]. split; reflexivity.
Qed.

(** C10. However often Add Task is clicked, the collection is the one
    before the clicks: no task is created, so no text is stored, trimmed or
    not. *)
Theorem addTask_stores_no_text_as_wired (nows : list Z) (ts : list Task) :
  apply_ops (map (OpAdd newTaskText) nows) ts = ts.
Proof.
  revert ts; induction nows as [|now nows IH]; intros ts; [reflexivity|].
  change (apply_ops (map (OpAdd newTaskText) (now :: nows)) ts)
    with (apply_ops (map (OpAdd newTaskText) nows)
            (fst (addTask newTaskText now ts))).
  rewrite (proj2 (proj2 (addTask_wired now ts))). apply IH.
Qed.

(** ** [toggleComplete] *)

(** C3. On a task with the given id [toggleComplete] negates [completed];
    the new [status] is done when the task has become completed and todo
    otherwise, so a completed task is sent back to todo whatever its status
    was, never to in-progress. The other fields are kept. *)
Theorem toggleComplete_flips (ts : list Task) (id0 : Z) (i : nat) (t : Task) :
  ts !! i = Some t -> id t = id0 ->
  exists t' : Task,
    toggleComplete id0 ts !! i = Some t' /\
    completed t' = negb (completed t) /\
    status t' = (if completed t' then done else todo) /\
    (completed t = true -> status t' = todo /\ status t' <> in_progress) /\
    id t' = id t /\ text t' = text t /\ aiAnalysis t' = aiAnalysis t /\
    aiSubTasks t' = aiSubTasks t /\ isSubTasksVisible t' = isSubTasksVisible t.
Proof.
  intros Hi Hid. unfold toggleComplete.
  rewrite lookup_map, Hi; simpl.
  rewrite Hid, Z.eqb_refl.
  eexists; split; [reflexivity|]; simpl.
  destruct (completed t); simpl; repeat split; try discriminate; auto.
Qed.

Lemma toggleComplete_flips_in_progress :
  let t := mkTask 7 "write report" true in_progress JNull JNull false in
  exists t' : Task,
    toggleComplete 7 [t] !! 0%nat = Some t' /\
    completed t' = negb (completed t) /\
    status t' = (if completed t' then done else todo) /\
    (completed t = true -> status t' = todo /\ status t' <> in_progress) /\
    id t' = id t /\ text t' = text t /\ aiAnalysis t' = aiAnalysis t /\
    aiSubTasks t' = aiSubTasks t /\ isSubTasksVisible t' = isSubTasksVisible t.
Proof.
  intros t. apply (toggleComplete_flips [t] 7 0 t); reflexivity.
Defined.

(** ** [String(n)] and [parseInt] *)

(** A string of decimal digits. *)
Lemma digit_value_10_D (d : uint) :
  match NilEmpty.string_of_uint d with
  | EmptyString => True
  | String c _ => exists v, digit_value 10 c = Some v /\ is_white_space c = false
                            /\ c <> "-"%char /\ c <> "+"%char
                            /\ c <> "x"%char /\ c <> "X"%char
  end.
Proof.
  destruct d; simpl; auto; eexists; (split; [reflexivity|]);
    repeat split; discriminate.
Qed.

Ltac eval_digit :=
  match goal with
  | |- context [digit_value 10 ?c] =>
      let v := eval vm_compute in (digit_value 10 c) in
      change (digit_value 10 c) with v; cbv iota
  end.

Ltac step_acc IH :=
  match goal with
  | |- parse_digits _ _ (Some ?z) = Some (Z.pos (Pos.of_uint_acc _ ?q)) =>
      replace z with (Z.pos q) by lia; apply IH
  end.

Lemma parse_digits_acc (d : uint) (p : positive) :
  parse_digits 10 (NilEmpty.string_of_uint d) (Some (Z.pos p)) =
  Some (Z.pos (Pos.of_uint_acc d p)).
Proof.
  revert p; induction d; intros p; cbn -[Z.mul Z.add Z.sub Pos.mul Pos.add];
    auto; eval_digit; step_acc IHd.
Qed.

Lemma parse_digits_zero (d : uint) :
  parse_digits 10 (NilEmpty.string_of_uint d) (Some 0) =
  Some (Z.of_N (Pos.of_uint d)).
Proof.
  induction d; cbn -[Z.mul Z.add Z.sub Pos.mul Pos.add]; auto; eval_digit;
    first [exact IHd | step_acc parse_digits_acc].
Qed.

(** Reading the digits of a number written by [String] gives it back. *)
Lemma parse_digits_to_uint (n : N) :
  parse_digits 10 (NilEmpty.string_of_uint (N.to_uint n)) None = Some (Z.of_N n).
Proof.
  rewrite <- (DecimalN.Unsigned.of_to n) at 2.
  unfold N.of_uint. rewrite <- parse_digits_zero.
  pose proof (digit_value_10_D (N.to_uint n)) as Hd.
  destruct (NilEmpty.string_of_uint (N.to_uint n)) as [|c s] eqn:E.
  - destruct n as [|p]; [discriminate E|].
    exfalso. apply (DecimalPos.Unsigned.to_uint_nonnil p).
    simpl in E. now destruct (Pos.to_uint p).
  - destruct Hd as (v & Hv & _). simpl. now rewrite Hv.
Qed.

Lemma parseInt_of_digits (d : uint) :
  d <> Nil ->
  parseInt (NilEmpty.string_of_uint d) =
    option_map (Z.mul 1) (parse_digits 10 (NilEmpty.string_of_uint d) None) /\
  parseInt (String "-" (NilEmpty.string_of_uint d)) =
    option_map (Z.mul (-1)) (parse_digits 10 (NilEmpty.string_of_uint d) None).
Proof.
  intros Hd. unfold option_map.
  destruct d as [|d|d|d|d|d|d|d|d|d|d]; [contradiction| ..];
    try (split; reflexivity).
  destruct d; split; reflexivity.
Qed.

(** [parseInt(String(n))] is [n]: the id [handleDragStart] stores is the id
    [handleDrop] reads back. *)
Lemma parseInt_Number_toString (n : Z) : parseInt (Number_toString n) = Some n.
Proof.
  destruct n as [|p|p]; [reflexivity| |];
    unfold Number_toString; simpl;
    destruct (parseInt_of_digits (Pos.to_uint p)
                (DecimalPos.Unsigned.to_uint_nonnil p)) as [Hpos Hneg];
    [rewrite Hpos | rewrite Hneg];
    change (Pos.to_uint p) with (N.to_uint (N.pos p));
    rewrite parse_digits_to_uint; reflexivity.
Qed.

(** ** [handleDrop] *)

(** C4. Dropping the task with the given id on a column sets its [status]
    to the column's and its [completed] flag to true exactly when that
    status is done, whatever the flag was; the other fields are kept. *)
Theorem handleDrop_moves (ts : list Task) (id0 : Z) (newStatus : Status)
    (i : nat) (t : Task) :
  ts !! i = Some t -> id t = id0 ->
  exists t' : Task,
    handleDrop (handleDragStart id0) newStatus ts !! i = Some t' /\
    status t' = newStatus /\
    (completed t' = true <-> newStatus = done) /\
    (newStatus <> done -> completed t' = false) /\
    id t' = id t /\ text t' = text t /\ aiAnalysis t' = aiAnalysis t /\
    aiSubTasks t' = aiSubTasks t /\ isSubTasksVisible t' = isSubTasksVisible t.
Proof.
  intros Hi Hid. unfold handleDrop, handleDragStart.
  rewrite parseInt_Number_toString, lookup_map, Hi; simpl.
  rewrite Hid, Z.eqb_refl.
  eexists; split; [reflexivity|]; simpl.
  destruct newStatus; simpl; repeat split; try discriminate; try congruence.
Qed.

Lemma handleDrop_moves_completed_to_in_progress :
  let t := mkTask 1700000000123 "ship release" true done JNull JNull false in
  exists t' : Task,
    handleDrop (handleDragStart 1700000000123) in_progress [t] !! 0%nat = Some t' /\
    status t' = in_progress /\
    (completed t' = true <-> in_progress = done) /\
    (in_progress <> done -> completed t' = false) /\
    id t' = id t /\ text t' = text t /\ aiAnalysis t' = aiAnalysis t /\
    aiSubTasks t' = aiSubTasks t /\ isSubTasksVisible t' = isSubTasksVisible t.
Proof.
  intros t.
  apply (handleDrop_moves [t] 1700000000123 in_progress 0 t); reflexivity.
Defined.

(** ** Board projection *)

Lemma column_sublist (st : Status) (ts : list Task) : sublist (column st ts) ts.
Proof.
  induction ts as [|t ts IH]; simpl; [constructor|].
  destruct (Status_eqb (status t) st); now constructor.
Qed.

Lemma column_status (st : Status) (ts : list Task) :
  Forall (fun t => status t = st) (column st ts).
Proof.
  induction ts as [|t ts IH]; simpl; [constructor|].
  destruct (Status_eqb (status t) st) eqn:E; auto.
  constructor; auto. now apply Status_eqb_eq.
Qed.

Lemma column_greatest (st : Status) (l ts : list Task) :
  sublist l ts -> Forall (fun t => status t = st) l -> sublist l (column st ts).
Proof.
  induction 1 as [|x l1 l2 Hs IH|x l1 l2 Hs IH]; intros Hall; simpl.
  - constructor.
  - inversion Hall as [|? ? Hx Hl]; subst.
    rewrite Status_eqb_refl. constructor. now apply IH.
  - destruct (Status_eqb (status x) st); [constructor|]; now apply IH.
Qed.

(** C9. A column of the board is the subsequence of the collection made of
    the tasks with that status, in the order of the collection: it is a
    subsequence, all its tasks have the status, and every subsequence of
    tasks with the status is a subsequence of it. For three tasks with
    statuses todo, done, todo the counts are 2, 0 and 1 and the todo column
    lists the first task before the third. *)
Theorem column_is_status_subsequence :
  (forall (st : Status) (ts : list Task),
      sublist (column st ts) ts /\
      Forall (fun t => status t = st) (column st ts) /\
      (forall l, sublist l ts -> Forall (fun t => status t = st) l ->
                 sublist l (column st ts))) /\
  (forall a b c : Task,
      status a = todo -> status b = done -> status c = todo ->
      column todo [a; b; c] = [a; c] /\
      map (fun st => column_count st [a; b; c]) columns = [2; 0; 1]%nat).
Proof.
  split.
  - intros st ts. split; [apply column_sublist|].
    split; [apply column_status|].
    intros l. apply column_greatest.
  - intros a b c Ha Hb Hc. unfold column_count, column; simpl.
    now rewrite Ha, Hb, Hc.
Qed.

Lemma column_is_status_subsequence_three_tasks :
  let a := mkTask 1 "Buy milk" false todo JNull JNull false in
  let b := mkTask 2 "Pay rent" true done JNull JNull false in
  let c := mkTask 3 "Call mum" false todo JNull JNull false in
  column todo [a; b; c] = [a; c] /\
  map (fun st => column_count st [a; b; c]) columns = [2; 0; 1]%nat.
Proof.
  intros a b c.
  apply (proj2 column_is_status_subsequence a b c); reflexivity.
Defined.

(** ** The completed flag and the done status *)

Lemma Forall_map_consistent (f : Task -> Task) (ts : list Task) :
  (forall t, consistent t -> consistent (f t)) ->
  Forall consistent ts -> Forall consistent (map f ts).
Proof.
  intros Hf Hts. induction Hts; simpl; constructor; auto.
Qed.

Lemma Forall_filter_consistent (p : Task -> bool) (ts : list Task) :
  Forall consistent ts -> Forall consistent (List.filter p ts).
Proof.
  intros Hts. induction Hts as [|t ts Ht Hts IH]; simpl; [constructor|].
  destruct (p t); [constructor|]; auto.
Qed.

Lemma addTask_consistent (v : JSVal) (now : Z) (ts : list Task) :
  Forall consistent ts -> Forall consistent (fst (addTask v now ts)).
Proof.
  intros Hts. destruct (addTask_cases v now ts) as [-> | (s & _ & _ & ->)]; auto.
  apply Forall_app; split; auto.
  constructor; [|constructor]. unfold consistent; simpl. split; discriminate.
Qed.

Lemma deleteTask_consistent (id0 : Z) (ts : list Task) :
  Forall consistent ts -> Forall consistent (deleteTask id0 ts).
Proof. apply Forall_filter_consistent. Qed.

Lemma toggleComplete_consistent (id0 : Z) (ts : list Task) :
  Forall consistent ts -> Forall consistent (toggleComplete id0 ts).
Proof.
  apply Forall_map_consistent. intros t Ht.
  destruct (id t =? id0); auto.
  unfold consistent; simpl. destruct (completed t); simpl; split; congruence.
Qed.

Lemma handleDrop_consistent (data : string) (newStatus : Status) (ts : list Task) :
  Forall consistent ts -> Forall consistent (handleDrop data newStatus ts).
Proof.
  apply Forall_map_consistent. intros t Ht.
  destruct (strict_eq_parsed (id t) (parseInt data)); auto.
  unfold consistent; simpl. destruct newStatus; simpl; split; congruence.
Qed.

Lemma toggleSubTasksVisibility_consistent (id0 : Z) (ts : list Task) :
  Forall consistent ts -> Forall consistent (toggleSubTasksVisibility id0 ts).
Proof.
  apply Forall_map_consistent. intros t Ht.
  destruct (id t =? id0); auto.
Qed.

Lemma setAnalysis_consistent (id0 : Z) (a : JSVal) (ts : list Task) :
  Forall consistent ts -> Forall consistent (setAnalysis id0 a ts).
Proof.
  apply Forall_map_consistent. intros t Ht.
  destruct (id t =? id0); auto.
Qed.

Lemma setSubTasks_consistent (id0 : Z) (l : JSVal) (ts : list Task) :
  Forall consistent ts -> Forall consistent (setSubTasks id0 l ts).
Proof.
  apply Forall_map_consistent. intros t Ht.
  destruct (id t =? id0); auto.
Qed.

(** C1. If [completed] is true exactly when [status] is done for every
    task of a collection, the same holds for every task of the collection
    any store operation produces from it. *)
Theorem apply_op_consistent (op : StoreOp) (ts : list Task) :
  Forall consistent ts -> Forall consistent (apply_op op ts).
Proof.
  destruct op; simpl.
  - apply addTask_consistent.
  - apply deleteTask_consistent.
  - apply toggleComplete_consistent.
  - apply handleDrop_consistent.
  - apply toggleSubTasksVisibility_consistent.
  - apply setAnalysis_consistent.
  - apply setSubTasks_consistent.
Qed.

Lemma apply_op_consistent_drop_done :
  let t := mkTask 5 "pay rent" false todo JNull JNull false in
  Forall consistent [t] /\
  Forall consistent (apply_op (OpMove "5" done) [t]) /\
  apply_op (OpMove "5" done) [t] = [mkTask 5 "pay rent" true done JNull JNull false].
Proof.
  intros t.
  assert (Ht : Forall consistent [t]).
  { constructor; [|constructor]. unfold consistent; simpl. split; discriminate. }
  split; [exact Ht|]. split; [|reflexivity].
  apply (apply_op_consistent (OpMove "5" done) [t] Ht).
Defined.

(** ** The AI workflows *)

Lemma setAnalysis_lookup (taskId : Z) (a : JSVal) (ts : list Task) (i : nat) (t : Task) :
  ts !! i = Some t -> id t = taskId ->
  setAnalysis taskId a ts !! i = Some (put_aiAnalysis a t).
Proof.
  intros Hi Hid. unfold setAnalysis.
  now rewrite lookup_map, Hi; simpl; rewrite Hid, Z.eqb_refl.
Qed.

Lemma setSubTasks_lookup (taskId : Z) (l : JSVal) (ts : list Task) (i : nat) (t : Task) :
  ts !! i = Some t -> id t = taskId ->
  setSubTasks taskId l ts !! i = Some (put_aiSubTasks l t).
Proof.
  intros Hi Hid. unfold setSubTasks.
  now rewrite lookup_map, Hi; simpl; rewrite Hid, Z.eqb_refl.
Qed.

Lemma response_ok_true (status : Z) :
  200 <= status <= 299 -> response_ok status = true.
Proof. unfold response_ok. lia. Qed.

Lemma response_ok_false (status : Z) :
  ~ 200 <= status <= 299 -> response_ok status = false.
Proof. unfold response_ok. lia. Qed.

Section Workflows.
Context `{Host}.

Lemma gt0_JNat (n : nat) : gt0 (JNat n) = negb (Nat.eqb n 0).
Proof.
  unfold gt0, JNat, Qle_bool; simpl. rewrite Z.mul_1_r.
  destruct n; simpl; auto.
Qed.

Lemma absent_not_truthy (v : JSVal) : absent v -> truthy v = false.
Proof. now intros [-> | ->]. Qed.

Lemma has_candidate_parts_nested (result jsonString : JSVal) :
  nested_text result jsonString -> has_candidate_parts result = inr true.
Proof.
  intros [fields cfields ofields pfields cs ps Hc Ho Hp].
  unfold has_candidate_parts; simpl.
  rewrite Hc; simpl. rewrite Ho; simpl. now rewrite Hp.
Qed.

Lemma candidate_text_nested (result jsonString : JSVal) :
  nested_text result jsonString -> candidate_text result = inr jsonString.
Proof.
  intros [fields cfields ofields pfields cs ps Hc Ho Hp].
  unfold candidate_text; simpl.
  rewrite Hc; simpl. rewrite Ho; simpl. now rewrite Hp.
Qed.

Lemma has_candidate_parts_missing (result : JSVal) :
  content_missing result -> has_candidate_parts result = inr false.
Proof.
  intros [fields Ha | fields Hc | fields cfields cs Hc Ha
         | fields cfields ofields cs Hc Ho Ha
         | fields cfields ofields cs Hc Ho Hp];
    unfold has_candidate_parts; simpl.
  - now rewrite (absent_not_truthy _ Ha).
  - now rewrite Hc.
  - rewrite Hc; simpl. now rewrite (absent_not_truthy _ Ha).
  - rewrite Hc; simpl. rewrite Ho; simpl. now rewrite (absent_not_truthy _ Ha).
  - rewrite Hc; simpl. rewrite Ho; simpl. now rewrite Hp.
Qed.

Lemma request_rejected (message : string) :
  request (FetchRejected message) = inl message.
Proof. reflexivity. Qed.

Lemma request_bad_status (status : Z) (body : Body) :
  ~ 200 <= status <= 299 ->
  request (FetchResponse status body) =
    inl ("HTTP error! status: " +:+ Number_toString status).
Proof. intros Hs. simpl. now rewrite (response_ok_false _ Hs). Qed.

Lemma request_body_rejected (status : Z) (message : string) :
  200 <= status <= 299 ->
  request (FetchResponse status (BodyRejected message)) = inl message.
Proof. intros Hs. simpl. now rewrite (response_ok_true _ Hs). Qed.

Lemma request_missing (status : Z) (result : JSVal) :
  200 <= status <= 299 -> content_missing result ->
  request (FetchResponse status (BodyJSON result)) = inr None.
Proof.
  intros Hs Hm. simpl. rewrite (response_ok_true _ Hs); simpl.
  now rewrite (has_candidate_parts_missing _ Hm).
Qed.

Lemma request_nested (status : Z) (result jsonString : JSVal) :
  200 <= status <= 299 -> nested_text result jsonString ->
  request (FetchResponse status (BodyJSON result)) =
    match JSON_parse jsonString with
    | inr parsed => inr (Some parsed)
    | inl message => inl message
    end.
Proof.
  intros Hs Hn. simpl. rewrite (response_ok_true _ Hs); simpl.
  rewrite (has_candidate_parts_nested _ _ Hn); simpl.
  rewrite (candidate_text_nested _ _ Hn); simpl.
  now destruct (JSON_parse jsonString).
Qed.

(** When [request] takes the [if] branch the value it returns was produced
    by [JSON.parse] from a successful response. *)
Lemma request_some (outcome : FetchOutcome) (parsed : JSVal) :
  request outcome = inr (Some parsed) ->
  exists status result jsonString,
    outcome = FetchResponse status (BodyJSON result) /\
    200 <= status <= 299 /\
    candidate_text result = inr jsonString /\
    JSON_parse jsonString = inr parsed.
Proof.
  destruct outcome as [message|status [message|result]]; simpl;
    try discriminate.
  - destruct (response_ok status); discriminate.
  - destruct (response_ok status) eqn:Hok; simpl; [|discriminate].
    destruct (has_candidate_parts result) as [m|[|]]; simpl; try discriminate.
    destruct (candidate_text result) as [m|jsonString] eqn:Ht; simpl;
      [discriminate|].
    destruct (JSON_parse jsonString) as [m|v] eqn:Hp; simpl; [discriminate|].
    intros [= <-]. exists status, result, jsonString.
    unfold response_ok in Hok. repeat split; auto; lia.
Qed.

End Workflows.

(** C5. When the [fetch] of an analysis settles, the loading marker is
    cleared, and the task with the given id keeps its other fields and
    receives an [aiAnalysis]: the value [JSON.parse] returned for the
    payload text of a successful response, stored as it is, or else the
    object with [category] "Error", [priority] "Error" and [notes] a
    failure description. The notes are "Analysis failed: " and the message
    when the transport fails, the status is not a success, the body or the
    payload does not parse, and "Could not analyze" when the candidate
    content is missing. *)
Theorem analyzeTaskWithAI_settles `{Host} (closure_tasks : list Task) (taskId : Z)
    (outcome : FetchOutcome) (a : App) (i : nat) (t : Task) :
  closure_tasks !! i = Some t -> id t = taskId ->
  let a' := analyzeTaskWithAI_settle closure_tasks taskId outcome a in
  let stores (v : JSVal) :=
    tasks a' !! i =
      Some {| id := id t; text := text t; completed := completed t;
              status := status t; aiAnalysis := v;
              aiSubTasks := aiSubTasks t;
              isSubTasksVisible := isSubTasksVisible t |} in
  let error_record (notes : string) :=
    JObj [("category", JStr "Error"); ("priority", JStr "Error");
          ("notes", JStr notes)] in
  (aiLoadingTaskId a' = None /\ forall t0 : Task, aiLoadingTaskId a' <> Some (id t0)) /\
  (exists v : JSVal,
      stores v /\
      ((exists status result jsonString,
           outcome = FetchResponse status (BodyJSON result) /\
           200 <= status <= 299 /\
           candidate_text result = inr jsonString /\
           JSON_parse jsonString = inr v) \/
       exists notes : string, v = error_record notes)) /\
  (forall status result jsonString parsed,
      outcome = FetchResponse status (BodyJSON result) ->
      200 <= status <= 299 -> nested_text result jsonString ->
      JSON_parse jsonString = inr parsed -> stores parsed) /\
  (forall message,
      outcome = FetchRejected message ->
      stores (error_record ("Analysis failed: " +:+ message))) /\
  (forall status body,
      outcome = FetchResponse status body -> ~ 200 <= status <= 299 ->
      stores (error_record ("Analysis failed: " +:+ "HTTP error! status: "
                            +:+ Number_toString status))) /\
  (forall status message,
      outcome = FetchResponse status (BodyRejected message) ->
      200 <= status <= 299 ->
      stores (error_record ("Analysis failed: " +:+ message))) /\
  (forall status result jsonString message,
      outcome = FetchResponse status (BodyJSON result) ->
      200 <= status <= 299 -> nested_text result jsonString ->
      JSON_parse jsonString = inl message ->
      stores (error_record ("Analysis failed: " +:+ message))) /\
  (forall status result,
      outcome = FetchResponse status (BodyJSON result) ->
      200 <= status <= 299 -> content_missing result ->
      stores (error_record "Could not analyze")).
Proof.
  intros Hi Hid a' stores error_record.
  assert (Hstore : forall v,
             tasks a' = setAnalysis taskId v closure_tasks -> stores v).
  { intros v Hv. unfold stores. rewrite Hv.
    now rewrite (setAnalysis_lookup _ v _ _ _ Hi Hid). }
  subst a'; unfold analyzeTaskWithAI_settle in *; simpl in *.
  split; [split; [reflexivity | discriminate]|].
  split.
  { destruct (request outcome) as [message|[parsed|]] eqn:Hr.
    - eexists; split; [now apply Hstore|]. right; eexists; reflexivity.
    - exists parsed; split; [now apply Hstore|]. left.
      now apply request_some.
    - eexists; split; [now apply Hstore|]. right; eexists; reflexivity. }
  repeat split.
  - intros status result jsonString parsed -> Hs Hn Hp. apply Hstore.
    now rewrite (request_nested _ _ _ Hs Hn), Hp.
  - intros message ->. now apply Hstore.
  - intros status body -> Hs. apply Hstore.
    now rewrite (request_bad_status _ _ Hs).
  - intros status message -> Hs. apply Hstore.
    now rewrite (request_body_rejected _ _ Hs).
  - intros status result jsonString message -> Hs Hn Hp. apply Hstore.
    now rewrite (request_nested _ _ _ Hs Hn), Hp.
  - intros status result -> Hs Hm. apply Hstore.
    now rewrite (request_missing _ _ Hs Hm).
Qed.

Lemma body_with_text_nested (jsonString : JSVal) :
  nested_text (body_with_text jsonString) jsonString.
Proof.
  unfold body_with_text.
  exact (nested_text_intro
           [("candidates",
             JArr [JObj [("content",
                          JObj [("parts", JArr [JObj [("text", jsonString)]]);
                                ("role", JStr "model")])]])]
           [("content", JObj [("parts", JArr [JObj [("text", jsonString)]]);
                              ("role", JStr "model")])]
           [("parts", JArr [JObj [("text", jsonString)]]); ("role", JStr "model")]
           [("text", jsonString)] [] [] eq_refl eq_refl eq_refl).
Qed.

Lemma analyzeTaskWithAI_settles_work_high :
  let t := mkTask 42 "File taxes" true done JNull (JArr [JStr "Find forms"]) true in
  let a := mkApp [t] (Some 42) None in
  let settled (outcome : FetchOutcome) :=
    @analyzeTaskWithAI_settle sample_host [t] 42 outcome a in
  let stored (outcome : FetchOutcome) (v : JSVal) :=
    aiLoadingTaskId (settled outcome) = None /\
    tasks (settled outcome) !! 0%nat =
      Some (mkTask 42 "File taxes" true done v (JArr [JStr "Find forms"]) true) in
  stored (FetchResponse 200 (BodyJSON (body_with_text (JStr work_high_text))))
    (JObj [("category", JStr "Work"); ("priority", JStr "High");
           ("notes", JStr "due soon")]) /\
  stored (FetchRejected "Failed to fetch")
    (JObj [("category", JStr "Error"); ("priority", JStr "Error");
           ("notes", JStr "Analysis failed: Failed to fetch")]) /\
  stored (FetchResponse 503 (BodyRejected "Unexpected end of JSON input"))
    (JObj [("category", JStr "Error"); ("priority", JStr "Error");
           ("notes", JStr "Analysis failed: HTTP error! status: 503")]) /\
  stored (FetchResponse 200 (BodyJSON (body_with_text (JStr "oops"))))
    (JObj [("category", JStr "Error"); ("priority", JStr "Error");
           ("notes", JStr "Analysis failed: Unexpected token")]) /\
  stored (FetchResponse 200 (BodyJSON (JObj [("candidates", JArr [])])))
    (JObj [("category", JStr "Error"); ("priority", JStr "Error");
           ("notes", JStr "Could not analyze")]).
Proof.
  intros t a settled stored.
  assert (Hs : 200 <= 200 <= 299) by lia.
  assert (Hbad : ~ 200 <= 503 <= 299) by lia.
  assert (Hall := fun outcome =>
            @analyzeTaskWithAI_settles sample_host [t] 42 outcome a 0%nat t
              eq_refl eq_refl).
  split; [|split; [|split; [|split]]]; (split; [exact (proj1 (proj1 (Hall _)))|]).
  - destruct (Hall (FetchResponse 200
                      (BodyJSON (body_with_text (JStr work_high_text)))))
      as (_ & _ & Hok & _).
    exact (Hok 200 (body_with_text (JStr work_high_text)) (JStr work_high_text)
             work_high eq_refl Hs (body_with_text_nested _) eq_refl).
  - destruct (Hall (FetchRejected "Failed to fetch")) as (_ & _ & _ & Hrej & _).
    exact (Hrej "Failed to fetch" eq_refl).
  - destruct (Hall (FetchResponse 503 (BodyRejected "Unexpected end of JSON input")))
      as (_ & _ & _ & _ & Hstatus & _).
    exact (Hstatus 503 _ eq_refl Hbad).
  - destruct (Hall (FetchResponse 200 (BodyJSON (body_with_text (JStr "oops")))))
      as (_ & _ & _ & _ & _ & _ & Hparse & _).
    exact (Hparse 200 (body_with_text (JStr "oops")) (JStr "oops")
             "Unexpected token" eq_refl Hs (body_with_text_nested _) eq_refl).
  - destruct (Hall (FetchResponse 200 (BodyJSON (JObj [("candidates", JArr [])]))))
      as (_ & _ & _ & _ & _ & _ & _ & Hmiss).
    exact (Hmiss 200 (JObj [("candidates", JArr [])]) eq_refl Hs
             (empty_candidates [("candidates", JArr [])] eq_refl)).
Defined.



(** ** Id-keyed updates *)

Lemma map_keyed_other (p : Task -> bool) (f : Task -> Task) (ts : list Task)
    (i : nat) (t : Task) :
  ts !! i = Some t -> p t = false ->
  map (fun task => if p task then f task else task) ts !! i = Some t.
Proof. intros Hi Hp. now rewrite lookup_map, Hi; simpl; rewrite Hp. Qed.

Lemma map_keyed_absent (p : Task -> bool) (f : Task -> Task) (ts : list Task) :
  Forall (fun t => p t = false) ts ->
  map (fun task => if p task then f task else task) ts = ts.
Proof.
  induction 1 as [|t ts Ht Hts IH]; simpl; [reflexivity|].
  now rewrite Ht, IH.
Qed.

Lemma filter_keyed_absent (p : Task -> bool) (ts : list Task) :
  Forall (fun t => p t = false) ts ->
  List.filter (fun task => negb (p task)) ts = ts.
Proof.
  induction 1 as [|t ts Ht Hts IH]; simpl; [reflexivity|].
  now rewrite Ht; simpl; rewrite IH.
Qed.


(** Applied to a collection with no task of that id, an id-keyed update or
    a deletion returns the collection. *)
Lemma keyed_update_absent (op : StoreOp) (id0 : Z) (ts : list Task) :
  keyed_update op id0 \/ op = OpDelete id0 ->
  Forall (fun t => id t <> id0) ts -> apply_op op ts = ts.
Proof.
  intros Hop Hall.
  assert (Hall' : Forall (fun t => (id t =? id0) = false) ts).
  { eapply Forall_impl; [exact Hall|]. intros t. apply Z.eqb_neq. }
  destruct Hop as [Hop | ->].
  - destruct op; simpl in Hop; try contradiction; subst; simpl;
      try (now apply map_keyed_absent).
    unfold handleDrop. rewrite Hop. now apply map_keyed_absent.
  - simpl. unfold deleteTask. now apply filter_keyed_absent.
Qed.


Lemma map_id_keyed (p : Task -> bool) (f : Task -> Task) (ts : list Task) :
  (forall t, id (f t) = id t) ->
  map id (map (fun task => if p task then f task else task) ts) = map id ts.
Proof.
  intros Hf. induction ts as [|t ts IH]; simpl; [reflexivity|].
  rewrite IH. now destruct (p t); rewrite ?Hf.
Qed.

Lemma map_id_filter_sublist (p : Task -> bool) (ts : list Task) :
  sublist (map id (List.filter p ts)) (map id ts).
Proof.
  induction ts as [|t ts IH]; simpl; [constructor|].
  destruct (p t); simpl; now constructor.
Qed.

(** Ids stay pairwise distinct as long as every addition reads a clock
    value that no task of the collection has as its id. *)
Lemma apply_op_NoDup (op : StoreOp) (ts : list Task) :
  (forall newTaskText now, op = OpAdd newTaskText now -> now ∉ map id ts) ->
  NoDup (map id ts) -> NoDup (map id (apply_op op ts)).
Proof.
  intros Hfresh Hnd. destruct op as [txt now| | | | | |]; simpl.
  - destruct (addTask_cases txt now ts) as [-> | (s & _ & _ & ->)]; auto.
    rewrite map_app; simpl. apply NoDup_app. split; [exact Hnd|].
    split; [|apply NoDup_singleton].
    intros x Hx Hx'. apply list_elem_of_singleton in Hx'; subst.
    now apply (Hfresh txt now).
  - unfold deleteTask.
    apply (sublist_NoDup _ _ Hnd), map_id_filter_sublist.
  - unfold toggleComplete. now rewrite map_id_keyed.
  - unfold handleDrop. now rewrite map_id_keyed.
  - unfold toggleSubTasksVisibility. now rewrite map_id_keyed.
  - unfold setAnalysis. now rewrite map_id_keyed.
  - unfold setSubTasks. now rewrite map_id_keyed.
Qed.

(** ** Reachable states *)

Section Reachable.
Context `{Host}.

Lemma settle_consistent (p : Pending) (outcome : FetchOutcome) (a : App) :
  Forall consistent (closure_tasks p) ->
  Forall consistent (tasks (settle p outcome a)).
Proof.
  intros Hp. unfold settle, analyzeTaskWithAI_settle, breakdownTaskWithAI_settle.
  destruct (workflow p); simpl;
    destruct (request outcome) as [message|[v|]];
    auto using setAnalysis_consistent, setSubTasks_consistent.
Qed.

Lemma step_consistent (e : Event) (s : Sys) :
  sys_consistent s -> sys_consistent (step e s).
Proof.
  intros [Ht Hp]. unfold sys_consistent.
  destruct e; simpl;
    try (split; [|exact Hp]);
    auto using addTask_consistent, toggleComplete_consistent,
      toggleSubTasksVisibility_consistent, deleteTask_consistent,
      handleDrop_consistent.
  - split; [exact Ht|]. apply Forall_app; split; [exact Hp|].
    constructor; [exact Ht|constructor].
  - split; [exact Ht|]. apply Forall_app; split; [exact Hp|].
    constructor; [exact Ht|constructor].
  - destruct (pending s !! k) as [p|] eqn:Hk; simpl; [|now split].
    split.
    + apply settle_consistent.
      exact (proj1 (Forall_lookup _ _) Hp k p Hk).
    + now apply Forall_delete.
Qed.

(** Whatever the events and the order in which responses arrive, the
    completed flag and the done status agree on every task the component
    ever holds. *)
Lemma run_consistent (events : list Event) (s : Sys) :
  sys_consistent s -> sys_consistent (run events s).
Proof.
  revert s; induction events as [|e events IH]; intros s Hs; simpl; auto.
  apply IH. now apply step_consistent.
Qed.

Lemma initial_consistent : sys_consistent initial.
Proof. split; constructor. Qed.

End Reachable.

(* ===================================================================== *)
(** * Further properties of the handlers *)

Lemma Task_eta (t : Task) :
  mkTask (id t) (text t) (completed t) (status t) (aiAnalysis t) (aiSubTasks t)
    (isSubTasksVisible t) = t.
Proof. now destruct t. Qed.

Lemma map_ext_id (f : Task -> Task) (ts : list Task) :
  Forall (fun t => f t = t) ts -> map f ts = ts.
Proof. induction 1 as [|t ts Ht _ IH]; simpl; [reflexivity|]. now rewrite Ht, IH. Qed.

Lemma map_fixes (f : Task -> Task) (ts : list Task) :
  map f ts = ts -> Forall (fun t => f t = t) ts.
Proof.
  induction ts as [|t ts IH]; simpl; [constructor|].
  intros [= Ht Hts]. constructor; auto.
Qed.

(** ** Toggles *)

(** X1. Clicking Show/Hide twice on a task gives back the collection. *)
Theorem toggleSubTasksVisibility_twice (id0 : Z) (ts : list Task) :
  toggleSubTasksVisibility id0 (toggleSubTasksVisibility id0 ts) = ts.
Proof.
  unfold toggleSubTasksVisibility. rewrite map_map. apply map_ext_id.
  apply Forall_forall. intros t _.
  destruct (id t =? id0) eqn:E; simpl; rewrite E; [|reflexivity].
  rewrite negb_involutive. apply Task_eta.
Qed.

(** X2. Ticking the checkbox of a task twice gives back the collection
    exactly when every task with that id is done if completed and todo if
    not: an in-progress task does not come back. *)
Theorem toggleComplete_twice_iff (id0 : Z) (ts : list Task) :
  toggleComplete id0 (toggleComplete id0 ts) = ts <->
  Forall (fun t => id t = id0 ->
                   status t = if completed t then done else todo) ts.
Proof.
  unfold toggleComplete. rewrite map_map. split.
  - intros Heq. apply map_fixes in Heq.
    eapply Forall_impl; [exact Heq|]. intros t Ht Hid; simpl in Ht.
    apply Z.eqb_eq in Hid. rewrite Hid in Ht; simpl in Ht. rewrite Hid in Ht.
    apply (f_equal status) in Ht; simpl in Ht.
    rewrite negb_involutive in Ht. now symmetry.
  - intros Hall. apply map_ext_id.
    eapply Forall_impl; [exact Hall|]. intros t Ht; simpl in Ht.
    destruct (id t =? id0) eqn:E; simpl; rewrite ?E; [|reflexivity].
    apply Z.eqb_eq in E. specialize (Ht E).
    destruct t as [i x c st a l v]; simpl in *. subst st.
    now destruct c.
Qed.

(** ** Deleting *)

Lemma deleteTask_sublist (id0 : Z) (ts : list Task) : sublist (deleteTask id0 ts) ts.
Proof.
  unfold deleteTask. induction ts as [|t ts IH]; simpl; [constructor|].
  destruct (negb (id t =? id0)); now constructor.
Qed.

Lemma deleteTask_none_left (id0 : Z) (ts : list Task) :
  Forall (fun t => id t <> id0) (deleteTask id0 ts).
Proof.
  unfold deleteTask. induction ts as [|t ts IH]; simpl; [constructor|].
  destruct (id t =? id0) eqn:E; simpl; auto.
  constructor; auto. now apply Z.eqb_neq.
Qed.

(** X3. [deleteTask] removes every task with the given id, also when
    several share it, and nothing else: the result is the longest
    subsequence of the collection without that id, and deleting again
    changes nothing. *)
Theorem deleteTask_removes_exactly (id0 : Z) (ts : list Task) :
  sublist (deleteTask id0 ts) ts /\
  Forall (fun t => id t <> id0) (deleteTask id0 ts) /\
  (forall l, sublist l ts -> Forall (fun t => id t <> id0) l ->
             sublist l (deleteTask id0 ts)) /\
  deleteTask id0 (deleteTask id0 ts) = deleteTask id0 ts.
Proof.
  split; [apply deleteTask_sublist|].
  split; [apply deleteTask_none_left|].
  split.
  - intros l Hl. unfold deleteTask.
    induction Hl as [|x l1 l2 Hs IH|x l1 l2 Hs IH]; intros Hall; simpl.
    + constructor.
    + inversion Hall as [|? ? Hx Hrest]; subst.
      apply Z.eqb_neq in Hx. rewrite Hx; simpl. constructor. now apply IH.
    + destruct (negb (id x =? id0)); [constructor|]; now apply IH.
  - apply (keyed_update_absent (OpDelete id0) id0); [now right|].
    apply deleteTask_none_left.
Qed.

Lemma filter_map_keyed (q p : Task -> bool) (f : Task -> Task) (ts : list Task) :
  (forall t, q (f t) = q t) ->
  List.filter q (map (fun task => if p task then f task else task) ts) =
  map (fun task => if p task then f task else task) (List.filter q ts).
Proof.
  intros Hq. induction ts as [|t ts IH]; simpl; [reflexivity|].
  assert (Ht : q (if p t then f t else t) = q t) by (destruct (p t); auto).
  rewrite Ht. destruct (q t); simpl; now rewrite IH.
Qed.

Lemma filter_comm (p q : Task -> bool) (ts : list Task) :
  List.filter p (List.filter q ts) = List.filter q (List.filter p ts).
Proof.
  induction ts as [|t ts IH]; simpl; [reflexivity|].
  destruct (p t) eqn:Hp, (q t) eqn:Hq; simpl; rewrite ?Hp, ?Hq, IH; reflexivity.
Qed.

(** X4. Deleting a task before or after another store operation gives the
    same collection, unless that operation is the addition that creates a
    task with the deleted id. *)
Theorem deleteTask_commutes (id0 : Z) (op : StoreOp) (ts : list Task) :
  (forall txt, op <> OpAdd txt id0) ->
  deleteTask id0 (apply_op op ts) = apply_op op (deleteTask id0 ts).
Proof.
  intros Hop. destruct op as [txt now|i|i|data st|i|i a|i l]; simpl.
  - destruct txt as [| | | |s| |]; try reflexivity. unfold addTask.
    destruct (negb (String.eqb (trim s) "")); simpl; auto.
    unfold deleteTask. rewrite List.filter_app; simpl.
    destruct (now =? id0) eqn:E; simpl; [|reflexivity].
    apply Z.eqb_eq in E; subst. now destruct (Hop (JStr s)).
  - unfold deleteTask. apply filter_comm.
  - unfold deleteTask, toggleComplete. now apply filter_map_keyed.
  - unfold deleteTask, handleDrop. now apply filter_map_keyed.
  - unfold deleteTask, toggleSubTasksVisibility. now apply filter_map_keyed.
  - unfold deleteTask, setAnalysis. now apply filter_map_keyed.
  - unfold deleteTask, setSubTasks. now apply filter_map_keyed.
Qed.

Lemma deleteTask_commutes_with_drop :
  let a := mkTask 1 "Buy milk" false todo JNull JNull false in
  let b := mkTask 2 "Pay rent" false todo JNull JNull false in
  deleteTask 1 (apply_op (OpMove "2" done) [a; b]) =
  apply_op (OpMove "2" done) (deleteTask 1 [a; b]).
Proof.
  intros a b. apply (deleteTask_commutes 1 (OpMove "2" done) [a; b]).
  intros txt. discriminate.
Defined.

(** ** Dropping *)

(** X5. Of two drops of the same card the last one decides: dropping on a
    column and then on another leaves the collection as one drop on the
    second column does; in particular a repeated drop changes nothing. *)
Theorem handleDrop_last_wins (data : string) (s1 s2 : Status) (ts : list Task) :
  handleDrop data s2 (handleDrop data s1 ts) = handleDrop data s2 ts.
Proof.
  unfold handleDrop. rewrite map_map. apply map_ext. intros t.
  destruct (strict_eq_parsed (id t) (parseInt data)) eqn:E; simpl; now rewrite E.
Qed.

(** X6. A drop whose payload does not read as the id of a task of the
    collection (no payload, text that is not a number, the id of a task
    that is gone) changes nothing. *)
Theorem handleDrop_foreign_payload (data : string) (newStatus : Status) (ts : list Task) :
  Forall (fun t => parseInt data <> Some (id t)) ts ->
  handleDrop data newStatus ts = ts.
Proof.
  intros Hall. unfold handleDrop. apply map_ext_id.
  eapply Forall_impl; [exact Hall|]. intros t Ht; simpl in Ht.
  unfold strict_eq_parsed. destruct (parseInt data) as [j|]; [|reflexivity].
  destruct (id t =? j) eqn:E; [|reflexivity].
  apply Z.eqb_eq in E. congruence.
Qed.

Lemma handleDrop_foreign_payload_examples :
  let a := mkTask 1700000000001 "Buy milk" false todo JNull JNull false in
  handleDrop "" done [a] = [a] /\
  handleDrop "https://example.org" done [a] = [a] /\
  handleDrop "1700000000002" done [a] = [a].
Proof.
  intros a. split; [|split];
    apply handleDrop_foreign_payload; repeat constructor; vm_compute; discriminate.
Defined.

(** X7. Ticking the checkbox of a task that is not completed does what
    dragging its card to the done column does, and unticking a completed
    task does what dragging it to the todo column does. *)
Theorem toggleComplete_is_a_drop (id0 : Z) (b : bool) (ts : list Task) :
  Forall (fun t => id t = id0 -> completed t = b) ts ->
  toggleComplete id0 ts =
  handleDrop (handleDragStart id0) (if b then todo else done) ts.
Proof.
  intros Hall. unfold toggleComplete, handleDrop, handleDragStart.
  rewrite parseInt_Number_toString; simpl.
  induction Hall as [|t ts Ht _ IH]; simpl; [reflexivity|].
  rewrite IH. f_equal.
  destruct (id t =? id0) eqn:E; [|reflexivity].
  apply Z.eqb_eq in E. rewrite (Ht E). now destruct b.
Qed.

Lemma toggleComplete_is_a_drop_unticked :
  let a := mkTask 7 "Write report" false in_progress JNull JNull false in
  let b := mkTask 8 "Pay rent" true done JNull JNull false in
  toggleComplete 7 [a; b] = handleDrop (handleDragStart 7) done [a; b].
Proof.
  intros a b. apply (toggleComplete_is_a_drop 7 false [a; b]).
  repeat constructor; simpl; intros; try reflexivity; discriminate.
Defined.

(** X12. The payload [handleDragStart] stores reads back as the id, and two
    ids never share a payload: a drop acts on the card that was dragged. *)
Theorem drag_payload_round_trip (a b : Z) :
  parseInt (handleDragStart a) = Some a /\
  (handleDragStart a = handleDragStart b -> a = b).
Proof.
  unfold handleDragStart. split; [apply parseInt_Number_toString|].
  intros Heq. apply (f_equal parseInt) in Heq.
  rewrite !parseInt_Number_toString in Heq. congruence.
Qed.

(** ** The board *)

(** X8. The three columns split the collection: together they hold the
    tasks of the collection, each once, and the header counts add up to the
    number of tasks. *)
Theorem columns_partition (ts : list Task) :
  column todo ts ++ column in_progress ts ++ column done ts ≡ₚ ts /\
  (column_count todo ts + column_count in_progress ts + column_count done ts
   = length ts)%nat.
Proof.
  assert (Hp : column todo ts ++ column in_progress ts ++ column done ts ≡ₚ ts).
  { unfold column. induction ts as [|t ts IH]; simpl; [reflexivity|].
    destruct (status t); simpl.
    - now constructor.
    - etrans; [symmetry; apply Permutation_middle|]. now constructor.
    - rewrite app_assoc.
      etrans; [symmetry; apply Permutation_middle|].
      rewrite <- app_assoc. now constructor. }
  split; [exact Hp|].
  apply Permutation_length in Hp. unfold column_count.
  rewrite !length_app in Hp. lia.
Qed.

Lemma map_keyed_projection {A : Type} (g : Task -> A) (p : Task -> bool)
    (f : Task -> Task) (ts : list Task) :
  (forall t, g (f t) = g t) ->
  map g (map (fun task => if p task then f task else task) ts) = map g ts.
Proof.
  intros Hg. rewrite map_map. apply map_ext. intros t.
  now destruct (p t).
Qed.

Lemma column_by_status (st : Status) (ts ts' : list Task) :
  map (fun t => (id t, status t)) ts = map (fun t => (id t, status t)) ts' ->
  map id (column st ts) = map id (column st ts').
Proof.
  revert ts'; induction ts as [|t ts IH]; intros [|t' ts']; simpl;
    try discriminate; [reflexivity|].
  intros [= Hid Hst Hrest]. unfold column in *; simpl.
  rewrite Hst. destruct (Status_eqb (status t') st); simpl;
    [rewrite Hid; f_equal|]; now apply IH.
Qed.

(** X11. Storing an AI result or toggling the sub-task list never moves a
    card: every column keeps the same tasks, by id and order, and the same
    count, and no task changes its text, completed flag or status. *)
Theorem ai_updates_keep_the_board (op : StoreOp) (ts : list Task) :
  match op with
  | OpToggleSubTasksVisible _ | OpSetAnalysis _ _ | OpSetSubTasks _ _ => True
  | _ => False
  end ->
  map (fun t => (id t, text t, completed t, status t)) (apply_op op ts) =
    map (fun t => (id t, text t, completed t, status t)) ts /\
  forall st : Status,
    map id (column st (apply_op op ts)) = map id (column st ts) /\
    column_count st (apply_op op ts) = column_count st ts.
Proof.
  intros Hop.
  assert (Hboard : forall A (g : Task -> A),
             (forall a t, g (put_aiAnalysis a t) = g t) ->
             (forall l t, g (put_aiSubTasks l t) = g t) ->
             (forall t, g (mkTask (id t) (text t) (completed t) (status t)
                             (aiAnalysis t) (aiSubTasks t)
                             (negb (isSubTasksVisible t))) = g t) ->
             map g (apply_op op ts) = map g ts).
  { intros A g Ha Hl Hv.
    destruct op; simpl in *; try contradiction;
      unfold toggleSubTasksVisibility, setAnalysis, setSubTasks;
      apply map_keyed_projection; auto. }
  split; [now apply Hboard|].
  intros st.
  assert (Hids : map id (column st (apply_op op ts)) = map id (column st ts)).
  { apply column_by_status. now apply Hboard. }
  split; [exact Hids|].
  unfold column_count. apply (f_equal length) in Hids.
  now rewrite !length_map in Hids.
Qed.

Lemma ai_updates_keep_the_board_breakdown :
  let a := mkTask 1 "Buy milk" false in_progress JNull JNull false in
  let op := OpSetSubTasks 1 (JArr [JStr "Find a shop"]) in
  map (fun t => (id t, text t, completed t, status t)) (apply_op op [a]) =
    map (fun t => (id t, text t, completed t, status t)) [a] /\
  forall st : Status,
    map id (column st (apply_op op [a])) = map id (column st [a]) /\
    column_count st (apply_op op [a]) = column_count st [a].
Proof.
  intros a op. apply (ai_updates_keep_the_board op [a]). exact I.
Defined.

(** ** Malformed response bodies *)

Section Bodies.
Context `{Host}.

Lemma analyze_settle_lookup (closure_tasks : list Task) (taskId : Z)
    (outcome : FetchOutcome) (a : App) (i : nat) (t : Task) :
  closure_tasks !! i = Some t -> id t = taskId ->
  tasks (analyzeTaskWithAI_settle closure_tasks taskId outcome a) !! i =
    Some (put_aiAnalysis
            match request outcome with
            | inr (Some parsed) => parsed
            | inr None => error_analysis "Could not analyze"
            | inl message => error_analysis ("Analysis failed: " +:+ message)
            end t).
Proof.
  intros Hi Hid. unfold analyzeTaskWithAI_settle; simpl.
  destruct (request outcome) as [m|[v|]]; now apply setAnalysis_lookup.
Qed.

Lemma breakdown_settle_lookup (closure_tasks : list Task) (taskId : Z)
    (outcome : FetchOutcome) (a : App) (i : nat) (t : Task) :
  closure_tasks !! i = Some t -> id t = taskId ->
  tasks (breakdownTaskWithAI_settle closure_tasks taskId outcome a) !! i =
    Some (put_aiSubTasks
            match request outcome with
            | inr (Some parsed) => parsed
            | inr None => JArr [JStr "Could not break down task."]
            | inl message => JArr [JStr ("Breakdown failed: " +:+ message)]
            end t).
Proof.
  intros Hi Hid. unfold breakdownTaskWithAI_settle; simpl.
  destruct (request outcome) as [m|[v|]]; now apply setSubTasks_lookup.
Qed.



End Bodies.





(** ** What the card shows after a workflow *)

(** X15. After an analysis has settled no card has its Analyze button
    disabled. On every failure path the card of the task shows the panel
    with category Error, priority Error and the failure notes. After a
    success what the card shows is decided by the parsed payload: the
    panel with its [category], [priority] and [notes] when it is truthy
    and the three are valid children, a render that throws when one of
    them is a plain object or an array holding one, the text 0 when the
    payload is the number zero, and nothing for any other falsy payload. *)
Theorem card_after_analysis `{Host} (closure_tasks : list Task) (taskId : Z)
    (outcome : FetchOutcome) (a : App) (i : nat) (t : Task) :
  closure_tasks !! i = Some t -> id t = taskId ->
  let a' := analyzeTaskWithAI_settle closure_tasks taskId outcome a in
  (forall t0 : Task,
      analyze_disabled (renderTaskCard a' t0) = false /\
      analyze_label (renderTaskCard a' t0) = "AI Analyze") /\
  exists t' : Task,
    tasks a' !! i = Some t' /\
    analysis_view t' =
      match request outcome with
      | inr (Some parsed) =>
          if truthy parsed then
            if valid_child (field parsed "category")
               && valid_child (field parsed "priority")
               && valid_child (field parsed "notes")
            then Panel (field parsed "category") (field parsed "priority")
                   (field parsed "notes")
            else PanelThrows
          else match parsed with JNum _ => PanelZero | _ => NoPanel end
      | inr None =>
          Panel (JStr "Error") (JStr "Error") (JStr "Could not analyze")
      | inl message =>
          Panel (JStr "Error") (JStr "Error")
            (JStr ("Analysis failed: " +:+ message))
      end.
Proof.
  intros Hi Hid a'. split; [intros t0; split; reflexivity|].
  eexists. split; [exact (analyze_settle_lookup _ _ _ _ _ _ Hi Hid)|].
  unfold analysis_view; simpl.
  now destruct (request outcome) as [m|[v|]].
Qed.

Lemma card_after_analysis_payloads :
  let t := mkTask 42 "File taxes" false todo JNull JNull false in
  let a := mkApp [t] (Some 42) None in
  let answer (s : string) := FetchResponse 200 (BodyJSON (body_with_text (JStr s))) in
  let shows (s : string) (view : AnalysisView) :=
    exists t' : Task,
      tasks (@analyzeTaskWithAI_settle literal_host [t] 42 (answer s) a) !! 0%nat
        = Some t' /\ analysis_view t' = view in
  shows "null" NoPanel /\ shows "0" PanelZero /\
  shows "{}" (Panel JUndefined JUndefined JUndefined) /\
  shows nested_category_text PanelThrows.
Proof.
  intros t a answer shows.
  assert (Hs : forall s, exists t' : Task,
             tasks (@analyzeTaskWithAI_settle literal_host [t] 42 (answer s) a) !! 0%nat
               = Some t' /\
             analysis_view t' =
               match @request literal_host (answer s) with
               | inr (Some parsed) =>
                   if truthy parsed then
                     if valid_child (field parsed "category")
                        && valid_child (field parsed "priority")
                        && valid_child (field parsed "notes")
                     then Panel (field parsed "category") (field parsed "priority")
                            (field parsed "notes")
                     else PanelThrows
                   else match parsed with JNum _ => PanelZero | _ => NoPanel end
               | inr None =>
                   Panel (JStr "Error") (JStr "Error") (JStr "Could not analyze")
               | inl message =>
                   Panel (JStr "Error") (JStr "Error")
                     (JStr ("Analysis failed: " +:+ message))
               end).
  { intros s.
    exact (proj2 (@card_after_analysis literal_host [t] 42 (answer s) a 0%nat t
                    eq_refl eq_refl)). }
  split; [exact (Hs "null")|]. split; [exact (Hs "0")|].
  split; [exact (Hs "{}")|]. exact (Hs nested_category_text).
Defined.

(** X16. After a breakdown has settled no card has its Breakdown button
    disabled. On every failure path the card of the task shows the
    sub-task section with the failure description as its only item. After
    a success what the card shows is decided by the parsed payload: one
    item per element when it is an array of valid children, nothing or the
    text 0 when it is falsy, and a render that throws when it is truthy
    but no array (it has no [map] method) or an array holding a plain
    object. *)
Theorem card_after_breakdown `{Host} (closure_tasks : list Task) (taskId : Z)
    (outcome : FetchOutcome) (a : App) (i : nat) (t : Task) :
  closure_tasks !! i = Some t -> id t = taskId ->
  let a' := breakdownTaskWithAI_settle closure_tasks taskId outcome a in
  (forall t0 : Task,
      breakdown_disabled (renderTaskCard a' t0) = false /\
      breakdown_label (renderTaskCard a' t0) = "Breakdown Task") /\
  exists t' : Task,
    tasks a' !! i = Some t' /\
    subtasks_view t' =
      match request outcome with
      | inr (Some (JArr items)) =>
          if forallb valid_child items then SectionList items else RenderThrows
      | inr (Some parsed) =>
          if truthy parsed then RenderThrows
          else match parsed with JNum _ => SectionZero | _ => NoSection end
      | inr None => SectionList [JStr "Could not break down task."]
      | inl message => SectionList [JStr ("Breakdown failed: " +:+ message)]
      end.
Proof.
  intros Hi Hid a'. split; [intros t0; split; reflexivity|].
  eexists. split; [exact (breakdown_settle_lookup _ _ _ _ _ _ Hi Hid)|].
  unfold subtasks_view, subtasks_view_of; simpl.
  destruct (request outcome) as [m|[v|]]; try reflexivity.
  destruct v; simpl; try reflexivity;
    match goal with
    | |- context [if ?c then _ else _] => destruct c
    end; reflexivity.
Qed.

Lemma card_after_breakdown_payloads :
  let t := mkTask 42 "Plan offsite" false todo JNull JNull false in
  let a := mkApp [t] None (Some 42) in
  let answer (s : string) := FetchResponse 200 (BodyJSON (body_with_text (JStr s))) in
  let shows (s : string) (view : SubTasksView) :=
    exists t' : Task,
      tasks (@breakdownTaskWithAI_settle literal_host [t] 42 (answer s) a) !! 0%nat
        = Some t' /\ subtasks_view t' = view in
  shows "[]" (SectionList []) /\ shows "null" NoSection /\ shows "0" SectionZero /\
  shows "{}" RenderThrows /\ shows "[{}]" RenderThrows.
Proof.
  intros t a answer shows.
  assert (Hs : forall s, exists t' : Task,
             tasks (@breakdownTaskWithAI_settle literal_host [t] 42 (answer s) a) !! 0%nat
               = Some t' /\
             subtasks_view t' =
               match @request literal_host (answer s) with
               | inr (Some (JArr items)) =>
                   if forallb valid_child items then SectionList items
                   else RenderThrows
               | inr (Some parsed) =>
                   if truthy parsed then RenderThrows
                   else match parsed with JNum _ => SectionZero | _ => NoSection end
               | inr None => SectionList [JStr "Could not break down task."]
               | inl message => SectionList [JStr ("Breakdown failed: " +:+ message)]
               end).
  { intros s.
    exact (proj2 (@card_after_breakdown literal_host [t] 42 (answer s) a 0%nat t
                    eq_refl eq_refl)). }
  split; [exact (Hs "[]")|]. split; [exact (Hs "null")|].
  split; [exact (Hs "0")|]. split; [exact (Hs "{}")|]. exact (Hs "[{}]").
Defined.

(** ** Calls in flight *)

Lemma lookup_snoc_last {A : Type} (l : list A) (x : A) :
  (l ++ [x]) !! length l = Some x.
Proof. induction l; simpl; auto. Qed.

Lemma delete_snoc_last {A : Type} (l : list A) (x : A) :
  delete (length l) (l ++ [x]) = l.
Proof. induction l as [|y l IH]; simpl; [reflexivity|]. now rewrite IH. Qed.

Section InFlight.
Context `{Host}.

Lemma settle_projection {A : Type} (g : Task -> A) (p : Pending)
    (outcome : FetchOutcome) (a : App) :
  (forall v t, g (put_aiAnalysis v t) = g t) ->
  (forall v t, g (put_aiSubTasks v t) = g t) ->
  map g (tasks (settle p outcome a)) = map g (closure_tasks p).
Proof.
  intros Ha Hl.
  unfold settle, analyzeTaskWithAI_settle, breakdownTaskWithAI_settle,
    setAnalysis, setSubTasks.
  destruct (workflow p); simpl; destruct (request outcome) as [m|[v|]];
    apply map_keyed_projection; auto.
Qed.

Lemma settle_other (p : Pending) (outcome : FetchOutcome) (a : App)
    (i : nat) (t : Task) :
  closure_tasks p !! i = Some t -> id t <> taskId p ->
  tasks (settle p outcome a) !! i = Some t.
Proof.
  intros Hi Hne. apply Z.eqb_neq in Hne.
  unfold settle, analyzeTaskWithAI_settle, breakdownTaskWithAI_settle,
    setAnalysis, setSubTasks.
  destruct (workflow p); simpl; destruct (request outcome) as [m|[v|]];
    now apply map_keyed_other.
Qed.

End InFlight.

(** X17. When a call settles, the collection becomes the one of the render
    in which the call was started, with the AI field of its task rewritten:
    the same tasks in the same order, each with the text, completed flag
    and status it had then. The collection of the moment is not read, so
    whatever was added, deleted, moved or ticked in between is undone. *)
Theorem settle_restores_closure `{Host} (s : Sys) (k : nat) (p : Pending)
    (outcome : FetchOutcome) :
  pending s !! k = Some p ->
  let s' := step (Settle k outcome) s in
  map (fun t => (id t, text t, completed t, status t)) (tasks (app s')) =
    map (fun t => (id t, text t, completed t, status t)) (closure_tasks p) /\
  (forall i t, closure_tasks p !! i = Some t -> id t <> taskId p ->
               tasks (app s') !! i = Some t) /\
  pending s' = delete k (pending s).
Proof.
  intros Hk s'. subst s'. simpl. rewrite Hk; simpl.
  split; [now apply settle_projection|].
  split; [|reflexivity].
  intros i t. apply settle_other.
Qed.

Lemma settle_restores_closure_after_tick :
  let t := mkTask 1000 "Buy milk" false todo JNull JNull false in
  let s := @run sample_host
             [ClickBreakdown 1000 "Buy milk"; CheckboxChange 1000]
             {| app := mkApp [t] None None; pending := [] |} in
  map (fun t => (id t, completed t)) (tasks (app s)) = [(1000, true)] /\
  map (fun t => (id t, completed t))
    (tasks (app (@step sample_host (Settle 0 (FetchRejected "Failed to fetch")) s)))
  = [(1000, false)].
Proof.
  intros t s. split; [reflexivity|].
  destruct (@settle_restores_closure sample_host s 0%nat
              (mkPending Breakdown 1000 "Buy milk" [t])
              (FetchRejected "Failed to fetch") eq_refl) as (Hmap & _ & _).
  apply (f_equal (map (fun q => (fst (fst (fst q)), snd (fst q))))) in Hmap.
  rewrite !map_map in Hmap. exact Hmap.
Defined.

(** X18. When the response arrives before anything else happens, the
    workflow changes the task it was called for and nothing else: every
    other task of the collection is where and as it was, no call is left
    in flight that was not there before, and both the analysis and the
    breakdown leave their marker cleared. *)
Theorem settle_right_after_click `{Host} (s : Sys) (id0 : Z) (txt : string)
    (outcome : FetchOutcome) (e : Event) :
  e = ClickAnalyze id0 txt \/ e = ClickBreakdown id0 txt ->
  let s' := step (Settle (length (pending s)) outcome) (step e s) in
  pending s' = pending s /\
  length (tasks (app s')) = length (tasks (app s)) /\
  (forall i t, tasks (app s) !! i = Some t -> id t <> id0 ->
               tasks (app s') !! i = Some t) /\
  (e = ClickAnalyze id0 txt -> aiLoadingTaskId (app s') = None) /\
  (e = ClickBreakdown id0 txt -> breakdownLoadingTaskId (app s') = None).
Proof.
  intros He s'.
  set (p := mkPending (match e with ClickBreakdown _ _ => Breakdown | _ => Analysis end)
              id0 txt (tasks (app s))).
  set (a1 := match e with
             | ClickBreakdown _ _ => breakdownTaskWithAI_start id0 (app s)
             | _ => analyzeTaskWithAI_start id0 (app s)
             end).
  assert (Hs' : s' = {| app := settle p outcome a1; pending := pending s |}).
  { subst s' p a1. destruct He as [-> | ->]; unfold step; cbn [pending app];
      now rewrite lookup_snoc_last, delete_snoc_last. }
  rewrite Hs'; cbn [pending app]. clear Hs' s'.
  split; [reflexivity|].
  split.
  { rewrite <- (length_map id (tasks (settle p outcome a1))).
    rewrite (settle_projection id) by reflexivity.
    now rewrite length_map. }
  split.
  { intros i t Hi Hne. now apply settle_other. }
  subst p a1. split; intros ->; reflexivity.
Qed.

Lemma settle_right_after_click_two_tasks :
  let a := mkTask 1 "Buy milk" false todo JNull JNull false in
  let b := mkTask 2 "Pay rent" true done JNull JNull false in
  let s := {| app := mkApp [a; b] None None; pending := [] |} in
  let s' := @step sample_host (Settle 0 (FetchRejected "Failed to fetch"))
              (@step sample_host (ClickAnalyze 1 "Buy milk") s) in
  pending s' = [] /\ tasks (app s') !! 1%nat = Some b /\
  aiLoadingTaskId (app s') = None.
Proof.
  intros a b s s'.
  destruct (@settle_right_after_click sample_host s 1 "Buy milk"
              (FetchRejected "Failed to fetch") (ClickAnalyze 1 "Buy milk")
              (or_introl eq_refl)) as (Hp & _ & Hother & Hmark & _).
  split; [exact Hp|]. split; [|exact (Hmark eq_refl)].
  apply (Hother 1%nat b eq_refl). discriminate.
Defined.

(** X19. The loading marker only remembers the last call started. Starting
    an analysis of a second task enables the Analyze button of the first
    again although its call is still in flight, and the response to the
    first call clears the marker while the second call is still in
    flight. *)
Theorem marker_follows_last_click `{Host} (s : Sys) (a b : Z) (ta tb : string)
    (outcome : FetchOutcome) (t : Task) :
  a <> b -> id t = a ->
  let s2 := step (ClickAnalyze b tb) (step (ClickAnalyze a ta) s) in
  let n := length (pending s) in
  analyze_disabled (renderTaskCard (app s2) t) = false /\
  pending s2 !! n = Some (mkPending Analysis a ta (tasks (app s))) /\
  pending s2 !! S n = Some (mkPending Analysis b tb (tasks (app s))) /\
  (let s3 := step (Settle n outcome) s2 in
   aiLoadingTaskId (app s3) = None /\
   pending s3 !! n = Some (mkPending Analysis b tb (tasks (app s)))).
Proof.
  intros Hab Hid s2 n; subst s2 n; simpl.
  assert (Hn : (pending s ++ [mkPending Analysis a ta (tasks (app s))]) !!
               length (pending s) = Some (mkPending Analysis a ta (tasks (app s))))
    by apply lookup_snoc_last.
  assert (Hn' : ((pending s ++ [mkPending Analysis a ta (tasks (app s))]) ++
                 [mkPending Analysis b tb (tasks (app s))]) !! S (length (pending s))
                = Some (mkPending Analysis b tb (tasks (app s)))).
  { replace (S (length (pending s)))
      with (length (pending s ++ [mkPending Analysis a ta (tasks (app s))]))
      by (rewrite length_app; simpl; lia).
    apply lookup_snoc_last. }
  split.
  { rewrite Hid. apply Z.eqb_neq. congruence. }
  split; [now rewrite lookup_app_l by (rewrite length_app; simpl; lia)|].
  split; [exact Hn'|].
  rewrite (lookup_app_l _ _ _) by (rewrite length_app; simpl; lia).
  rewrite Hn; simpl. split; [reflexivity|].
  rewrite <- app_assoc; simpl.
  clear. induction (pending s) as [|x l IH]; simpl; auto.
Qed.

Lemma marker_follows_last_click_two_tasks :
  let a := mkTask 1 "Buy milk" false todo JNull JNull false in
  let b := mkTask 2 "Pay rent" false todo JNull JNull false in
  let s := {| app := mkApp [a; b] None None; pending := [] |} in
  let s2 := @step sample_host (ClickAnalyze 2 "Pay rent")
              (@step sample_host (ClickAnalyze 1 "Buy milk") s) in
  analyze_disabled (renderTaskCard (app s2) a) = false /\
  pending s2 !! 0%nat = Some (mkPending Analysis 1 "Buy milk" [a; b]).
Proof.
  intros a b s s2.
  assert (Hne : 1 <> 2) by lia.
  destruct (@marker_follows_last_click sample_host s 1 2 "Buy milk" "Pay rent"
              (FetchRejected "Failed to fetch") a Hne eq_refl)
    as (Hbutton & Hfirst & _).
  split; [exact Hbutton | exact Hfirst].
Defined.

(** ** Every state the component can reach *)

Lemma Forall_map_delete {A B : Type} (P : B -> Prop) (g : A -> B) (k : nat)
    (l : list A) :
  Forall P (map g l) -> Forall P (map g (delete k l)).
Proof.
  revert k; induction l as [|x l IH]; intros [|k]; simpl; auto;
    intros Hl; inversion Hl; subst; auto.
Qed.

Section Traces.
Context `{Host}.

Lemma run_app (e1 e2 : list Event) (s : Sys) :
  run (e1 ++ e2) s = run e2 (run e1 s).
Proof. unfold run. apply fold_left_app. Qed.

(** A property of collections that id-keyed updates, deletions and one
    given event keep is kept by the step of that event, on the collection
    and on the closures of the calls in flight. *)
Lemma step_collections (P : list Task -> Prop) (e : Event) (s : Sys) :
  (forall (c : list Task) (p : Task -> bool) (f : Task -> Task),
      P c -> (forall t, id (f t) = id t /\ text (f t) = text t) ->
      P (map (fun task => if p task then f task else task) c)) ->
  (forall (c : list Task) (q : Task -> bool), P c -> P (List.filter q c)) ->
  (forall txt now, e = ClickAdd txt now ->
                   P (tasks (app s)) -> P (fst (addTask txt now (tasks (app s))))) ->
  Forall P (sys_collections s) -> Forall P (sys_collections (step e s)).
Proof.
  intros Hmap Hfilter Hadd Hs. unfold sys_collections in *.
  apply Forall_cons in Hs as [Ht Hp].
  destruct e as [txt now|i|i|i|data st|i txt|i txt|k outcome]; simpl.
  - constructor; [now apply (Hadd txt now)|exact Hp].
  - constructor; [|exact Hp]. unfold toggleComplete. now apply Hmap.
  - constructor; [|exact Hp]. unfold toggleSubTasksVisibility. now apply Hmap.
  - constructor; [|exact Hp]. unfold deleteTask. now apply Hfilter.
  - constructor; [|exact Hp]. unfold handleDrop. now apply Hmap.
  - constructor; [exact Ht|]. rewrite map_app. apply Forall_app; split; [exact Hp|].
    simpl. now constructor.
  - constructor; [exact Ht|]. rewrite map_app. apply Forall_app; split; [exact Hp|].
    simpl. now constructor.
  - destruct (pending s !! k) as [p|] eqn:Hk; simpl; [|now constructor].
    constructor.
    + assert (Hc : P (closure_tasks p)).
      { apply (proj1 (Forall_lookup _ _) Hp k).
        now rewrite lookup_map, Hk. }
      unfold settle, analyzeTaskWithAI_settle, breakdownTaskWithAI_settle,
        setAnalysis, setSubTasks.
      destruct (workflow p); simpl; destruct (request outcome) as [m|[v|]];
        now apply Hmap.
    + now apply Forall_map_delete.
Qed.

Lemma run_origin (R : Z -> string -> Prop) (events : list Event) (s : Sys) :
  (forall txt now, In (ClickAdd (JStr txt) now) events -> trim txt <> "" ->
                   R now txt) ->
  Forall (Forall (fun t => R (id t) (text t))) (sys_collections s) ->
  Forall (Forall (fun t => R (id t) (text t))) (sys_collections (run events s)).
Proof.
  revert s; induction events as [|e events IH]; intros s HR Hs; simpl; auto.
  apply IH; [intros txt now Hin; apply HR; now right|].
  apply step_collections; auto.
  - intros c p f Hc Hf. induction Hc as [|t c Ht _ IHc]; simpl; constructor; auto.
    destruct (p t); auto. destruct (Hf t) as [-> ->]. exact Ht.
  - intros c q Hc. induction Hc as [|t c Ht _ IHc]; simpl; [constructor|].
    destruct (q t); [constructor|]; auto.
  - intros v now -> Ht.
    destruct (addTask_cases v now (tasks (app s))) as [-> | (txt & -> & Hn & ->)];
      auto.
    apply Forall_app; split; auto. constructor; [|constructor]; simpl.
    apply HR; [now left|exact Hn].
Qed.

End Traces.

(** X20. Whatever the user does from the first render, and in whatever
    order the responses arrive, the completed flag and the done status
    agree on every task of the collection and of every collection a call
    in flight will write back. *)
Theorem reachable_consistent `{Host} (events : list Event) :
  Forall consistent (tasks (app (run events initial))) /\
  Forall (fun p => Forall consistent (closure_tasks p))
    (pending (run events initial)).
Proof. apply (run_consistent events initial), initial_consistent. Qed.

(** X21. Every task the component ever holds was made by an addition of
    the trace: its id is the clock reading of that addition and its text is
    the string [newTaskText] was bound to then, which is not blank. No
    handler rewrites an id or a text. *)
Theorem reachable_tasks_come_from_adds `{Host} (events : list Event) :
  Forall (Forall (fun t => In (ClickAdd (JStr (text t)) (id t)) events /\
                           blank (text t) = false))
    (sys_collections (run events initial)).
Proof.
  apply (run_origin (fun now txt => In (ClickAdd (JStr txt) now) events /\
                                    blank txt = false)).
  - intros txt now Hin Ht. split; [exact Hin|].
    destruct (blank txt) eqn:Hb; [|reflexivity].
    now apply trim_empty_iff in Hb.
  - repeat constructor.
Qed.

Lemma map_id_filter_subset (q : Task -> bool) (c : list Task) (x : Z) :
  x ∈ map id (List.filter q c) -> x ∈ map id c.
Proof.
  intros Hx. eapply sublist_subseteq; [apply map_id_filter_sublist|exact Hx].
Qed.

Lemma run_ids `{Host} (events : list Event) (s : Sys) (U : list Z) :
  NoDup (clock_readings events) ->
  (forall x, x ∈ clock_readings events -> x ∉ U) ->
  Forall (fun c => NoDup (map id c) /\ forall x, x ∈ map id c -> x ∈ U)
    (sys_collections s) ->
  Forall (fun c => NoDup (map id c)) (sys_collections (run events s)).
Proof.
  revert s U; induction events as [|e events IH]; intros s U Hnd Hdis Hs.
  - simpl. eapply Forall_impl; [exact Hs|]. now intros c [Hc _].
  - change (run (e :: events) s) with (run events (step e s)).
    destruct e as [txt now|i|i|i|data st|i txt|i txt|k outcome];
      try (apply (IH _ U); [exact Hnd|exact Hdis|];
           apply step_collections;
           [ intros c p f [Hc Hsub] Hf;
             rewrite map_id_keyed by (intros t; apply Hf); now split
           | intros c q [Hc Hsub]; split;
             [ eapply sublist_NoDup; [exact Hc|apply map_id_filter_sublist]
             | intros x Hx; apply Hsub; now apply map_id_filter_subset with q ]
           | intros ? ? [=]
           | exact Hs ]).
    assert (Hcase :
      (clock_readings (ClickAdd txt now :: events) = clock_readings events /\
       fst (addTask txt now (tasks (app s))) = tasks (app s)) \/
      (exists s0,
          clock_readings (ClickAdd txt now :: events) = now :: clock_readings events /\
          fst (addTask txt now (tasks (app s))) =
            tasks (app s) ++ [mkTask now s0 false todo JNull JNull false])).
    { destruct txt as [| | | |s0| |]; try (left; split; reflexivity).
      unfold clock_readings, addTask; simpl.
      destruct (String.eqb (trim s0) ""); simpl; [left|right]; eauto. }
    destruct Hcase as [[Hr Hfst] | (s0 & Hr & Hfst)]; rewrite Hr in Hnd, Hdis.
    { apply (IH _ U); [exact Hnd|exact Hdis|].
      unfold sys_collections in *; simpl. now rewrite Hfst. }
    apply NoDup_cons in Hnd as [Hnow Hnd].
    assert (HnowU : now ∉ U) by (apply Hdis; now left).
    apply (IH _ (now :: U)); [exact Hnd| |].
    + intros x Hx HxU. apply elem_of_cons in HxU as [-> | HxU]; [contradiction|].
      apply (Hdis x); [now right|exact HxU].
    + unfold sys_collections in *. apply Forall_cons in Hs as [[Ht Hsub] Hp].
      simpl. rewrite Hfst. constructor.
      * rewrite map_app; simpl. split.
        -- apply NoDup_app. split; [exact Ht|].
           split; [|apply NoDup_singleton].
           intros x Hx Hx'. apply list_elem_of_singleton in Hx'; subst.
           apply HnowU. now apply Hsub.
        -- intros x Hx. apply elem_of_app in Hx as [Hx|Hx].
           ++ right. now apply Hsub.
           ++ apply list_elem_of_singleton in Hx; subst. now left.
      * eapply Forall_impl; [exact Hp|]. intros c [Hc Hsubc].
        split; [exact Hc|]. intros x Hx. right. now apply Hsubc.
Qed.

(** X22. As long as the clock readings a trace makes, those of the
    additions that pass the guard, are pairwise different, the ids of the
    collection are pairwise distinct in every state the component reaches,
    and so are the ids of every collection a call in flight will write
    back. An addition that is turned down or throws reads no clock and
    does not count. *)
Theorem reachable_ids_distinct `{Host} (events : list Event) :
  NoDup (clock_readings events) ->
  Forall (fun c => NoDup (map id c)) (sys_collections (run events initial)).
Proof.
  intros Hnd. apply (run_ids events initial []); [exact Hnd| |].
  - intros x _ Hx. now apply not_elem_of_nil in Hx.
  - repeat constructor. intros x Hx. now apply not_elem_of_nil in Hx.
Qed.

Lemma reachable_ids_distinct_with_rejected_adds :
  let events :=
    [ClickAdd newTaskText 1000; ClickAdd (JStr "  ") 1000;
     ClickAdd (JStr "Buy milk") 1000; ClickAnalyze 1000 "Buy milk";
     ClickAdd (JStr "Call mum") 2000; ClickDelete 1000;
     Settle 0 (FetchRejected "Failed to fetch"); ClickAdd newTaskText 2000] in
  clock_readings events = [1000; 2000] /\
  Forall (fun c => NoDup (map id c))
    (sys_collections (@run sample_host events initial)).
Proof.
  intros events. split; [reflexivity|].
  apply (@reachable_ids_distinct sample_host events).
  apply (bool_decide_unpack _). reflexivity.
Defined.

(** ** Theme *)

Lemma toggleTheme_values (theme : string) :
  toggleTheme theme = "light" \/ toggleTheme theme = "dark".
Proof. unfold toggleTheme. destruct (String.eqb theme "light"); auto. Qed.

(** X23. One click on the theme button always lands on light or dark, and
    two clicks bring the theme back exactly when it was one of the two: a
    theme read from storage that is neither is left for good at the first
    click. *)
Theorem toggleTheme_two_values (theme : string) :
  (toggleTheme theme = "light" \/ toggleTheme theme = "dark") /\
  (toggleTheme (toggleTheme theme) = theme <-> theme = "light" \/ theme = "dark") /\
  toggleTheme (toggleTheme (toggleTheme theme)) = toggleTheme theme.
Proof.
  unfold toggleTheme.
  destruct (String.eqb_spec theme "light") as [-> | Hl]; simpl.
  - repeat split; auto.
  - split; [now left|]. split; [|reflexivity].
    split; [intros <-; now right|].
    intros [-> | ->]; [contradiction|reflexivity].
Qed.

Lemma has_token_elem (token : string) (tokens : list string) :
  has_token token tokens = true <-> token ∈ tokens.
Proof.
  unfold has_token. rewrite existsb_exists, list_elem_of_In. split.
  - intros (x & Hx & Heq). apply String.eqb_eq in Heq. now subst.
  - intros Hin. exists token. split; [exact Hin|apply String.eqb_refl].
Qed.

Lemma classList_remove_elem (tokens cl : list string) (c : string) :
  c ∈ classList_remove tokens cl <-> c ∈ cl /\ c ∉ tokens.
Proof.
  unfold classList_remove. rewrite !list_elem_of_In, filter_In, negb_true_iff.
  rewrite <- not_true_iff_false, has_token_elem, list_elem_of_In. tauto.
Qed.

Lemma classList_add_elem (token : string) (cl cl' : list string) (c : string) :
  classList_add token cl = Some cl' ->
  (c ∈ cl' <-> c ∈ cl \/ c = token) /\ token <> "" /\
  has_ascii_whitespace token = false.
Proof.
  unfold classList_add.
  destruct (String.eqb_spec token "") as [|Hne]; [discriminate|].
  destruct (has_ascii_whitespace token); [discriminate|].
  intros [= <-]. split; [|now split].
  destruct (has_token token cl) eqn:E.
  - apply has_token_elem in E. split; [now left|]. now intros [Hc | ->].
  - rewrite elem_of_app, list_elem_of_singleton. tauto.
Qed.

Lemma initial_theme_stored (theme : string) (storage : gmap string string) :
  theme <> "" -> initial_theme (<["theme" := theme]> storage) = theme.
Proof.
  intros Hne. unfold initial_theme. rewrite lookup_insert_eq.
  now destruct (String.eqb_spec theme "").
Qed.

Lemma theme_effect_spec (theme : string) (page page' : Page) :
  theme_effect theme page = Some page' ->
  theme ∈ classes page' /\
  (forall c, c <> theme ->
             (c ∈ classes page' <-> c ∈ classes page /\ c <> "light" /\ c <> "dark")) /\
  localStorage page' = <["theme" := theme]> (localStorage page) /\
  theme <> "".
Proof.
  unfold theme_effect.
  destruct (classList_add theme _) as [cl|] eqn:Hadd; [|discriminate].
  intros [= <-]; simpl.
  split; [apply (classList_add_elem _ _ _ theme Hadd); now right|].
  split; [|split; [reflexivity|apply (classList_add_elem _ _ _ theme Hadd)]].
  intros c Hc. rewrite (proj1 (classList_add_elem _ _ _ c Hadd)).
  rewrite classList_remove_elem, !elem_of_cons, elem_of_nil. tauto.
Qed.

(** X24. When the theme effect runs through, the document carries the
    class of the theme, the classes light and dark other than the theme are
    gone, every other class is kept, and the theme is stored under the key
    [theme] with no other key touched. It throws, before anything is
    stored, exactly when the theme is empty or contains white space, which
    only a value read from storage can. *)
Theorem theme_effect_sets_class_and_storage (theme : string) (page : Page) :
  (theme_effect theme page = None <->
   theme = "" \/ has_ascii_whitespace theme = true) /\
  forall page' : Page,
    theme_effect theme page = Some page' ->
    theme ∈ classes page' /\
    (forall c, c <> theme ->
               (c ∈ classes page' <-> c ∈ classes page /\ c <> "light" /\ c <> "dark")) /\
    localStorage page' !! "theme" = Some theme /\
    (forall k, k <> "theme" -> localStorage page' !! k = localStorage page !! k).
Proof.
  split.
  - unfold theme_effect, classList_add.
    destruct (String.eqb_spec theme "") as [->|Hne]; [split; auto|].
    destruct (has_ascii_whitespace theme); split; auto; try discriminate.
    intros [? | ?]; [contradiction|discriminate].
  - intros page' He. destruct (theme_effect_spec _ _ _ He) as (Hin & Hc & Hst & _).
    split; [exact Hin|]. split; [exact Hc|]. rewrite Hst.
    split; [apply lookup_insert_eq|].
    intros k Hk. now apply lookup_insert_ne.
Qed.

Lemma theme_effect_light_dark (theme : string) (page : Page) :
  theme = "light" \/ theme = "dark" ->
  exists page', theme_effect theme page = Some page'.
Proof.
  intros [-> | ->]; unfold theme_effect, classList_add; simpl; eauto.
Qed.

Lemma toggles_spec (n : nat) (theme : string) (page : Page) :
  theme = "light" \/ theme = "dark" ->
  theme ∈ classes page -> toggleTheme theme ∉ classes page ->
  localStorage page !! "theme" = Some theme ->
  exists page',
    toggles n theme page = Some (Nat.iter n toggleTheme theme, page') /\
    Nat.iter n toggleTheme theme ∈ classes page' /\
    (toggleTheme (Nat.iter n toggleTheme theme) ∉ classes page') /\
    initial_theme (localStorage page') = Nat.iter n toggleTheme theme.
Proof.
  revert theme page; induction n as [|n IH]; intros theme page Hth Hin Hout Hst.
  - exists page. simpl. repeat split; auto.
    unfold initial_theme. rewrite Hst.
    now destruct Hth as [-> | ->].
  - simpl toggles.
    assert (Hth' : toggleTheme theme = "light" \/ toggleTheme theme = "dark")
      by apply toggleTheme_values.
    destruct (theme_effect_light_dark _ page Hth') as [page1 He].
    rewrite He.
    destruct (theme_effect_spec _ _ _ He) as (Hin1 & Hc1 & Hst1 & _).
    destruct (IH (toggleTheme theme) page1 Hth' Hin1) as (page' & Hrun & Hres).
    + assert (Hback : toggleTheme (toggleTheme theme) = theme)
        by (destruct Hth as [-> | ->]; reflexivity).
      rewrite Hback. intros Hin'.
      apply Hc1 in Hin'; [|destruct Hth as [-> | ->]; discriminate].
      destruct Hin' as (_ & Hl & Hd). destruct Hth as [-> | ->]; contradiction.
    + rewrite Hst1. apply lookup_insert_eq.
    + exists page'. rewrite Hrun. rewrite Nat.iter_succ_r. auto.
Qed.

(** X25. In a session that starts from a stored theme that is absent,
    empty, light or dark, after any number of clicks on the theme button
    the document carries the class of the current theme and not the other
    one, and the stored theme is the current one: the next session starts
    with the theme this one ended on. The current theme is the initial one
    after an even number of clicks and the other one after an odd number. *)
Theorem session_persists_theme (n : nat) (page : Page) :
  let theme0 := initial_theme (localStorage page) in
  theme0 = "light" \/ theme0 = "dark" ->
  exists (theme : string) (page' : Page),
    session n page = Some (theme, page') /\
    theme = (if Nat.even n then theme0 else toggleTheme theme0) /\
    theme ∈ classes page' /\ (toggleTheme theme ∉ classes page') /\
    initial_theme (localStorage page') = theme.
Proof.
  intros theme0 Hth. unfold session. fold theme0.
  destruct (theme_effect_light_dark _ page Hth) as [page1 He]. rewrite He.
  destruct (theme_effect_spec _ _ _ He) as (Hin1 & Hc1 & Hst1 & _).
  destruct (toggles_spec n theme0 page1 Hth Hin1) as (page' & Hrun & Hin & Hout & Hst).
  - intros Hin'. apply Hc1 in Hin'; [|destruct Hth as [-> | ->]; discriminate].
    destruct Hin' as (_ & Hl & Hd).
    destruct Hth as [E | E]; rewrite E in *; simpl in *; contradiction.
  - rewrite Hst1. apply lookup_insert_eq.
  - exists (Nat.iter n toggleTheme theme0), page'.
    split; [exact Hrun|]. split; [|auto].
    clear -Hth. induction n as [|n IH]; [reflexivity|].
    rewrite Nat.even_succ, <- Nat.negb_even. simpl. rewrite IH.
    destruct (Nat.even n); simpl; [reflexivity|].
    destruct Hth as [-> | ->]; reflexivity.
Qed.

Lemma session_persists_theme_three_clicks :
  let page := mkPage ["no-js"; "dark"] (<["theme" := "dark"]> ∅) in
  exists (theme : string) (page' : Page),
    session 3 page = Some (theme, page') /\
    theme = "light" /\
    theme ∈ classes page' /\ (toggleTheme theme ∉ classes page') /\
    initial_theme (localStorage page') = theme.
Proof.
  intros page.
  destruct (session_persists_theme 3 page) as (theme & page' & Hs & Ht & Hrest).
  - right. reflexivity.
  - exists theme, page'. split; [exact Hs|]. split; [|exact Hrest].
    rewrite Ht. reflexivity.
Defined.

(** ** Payloads read leniently *)

(** X26. [handleDrop] acts on the task whose id [parseInt] reads from the
    payload, and [parseInt] reads more than what [handleDragStart] writes:
    a payload with leading white space, trailing text or a hexadecimal
    prefix moves the task of the number it starts with, exactly as a drag
    of that task would. *)
Theorem handleDrop_reads_leniently (data : string) (n : Z) (newStatus : Status)
    (ts : list Task) :
  parseInt data = Some n ->
  handleDrop data newStatus ts = handleDrop (handleDragStart n) newStatus ts.
Proof.
  intros Hn. unfold handleDrop, handleDragStart.
  now rewrite Hn, parseInt_Number_toString.
Qed.

Lemma handleDrop_reads_leniently_examples :
  let a := mkTask 42 "Buy milk" false todo JNull JNull false in
  handleDrop " 42px" done [a] = handleDrop (handleDragStart 42) done [a] /\
  handleDrop "0x2A" done [a] = handleDrop (handleDragStart 42) done [a] /\
  handleDrop "+42.9" done [a] = handleDrop (handleDragStart 42) done [a].
Proof.
  intros a. split; [|split]; apply handleDrop_reads_leniently; reflexivity.
Defined.

(* ===================================================================== *)
(** * The component as line 13 wires it *)








